(** * Request rules of the rule runner (rulesets-base) and the CLI's
      rule-runner factory, embedded from the TypeScript sources.

    - [getRequestRules], [createRequestBodyResult],
      [createRequestPropertyResult], [runRequestRules]:
      rule-runner/request.ts (src/unnamed/part_002);
    - [generateRuleRunner]: the CLI helper (src/unnamed/part_000).

    The runner pushes to a local [results] array inside nested loops and
    calls user callbacks (rule bodies, matchers) and the assertion
    executor; the embedding threads the array and a trace of those calls
    through a small state monad, loops are monadic iterations. *)

From Stdlib Require Import String Ascii List ZArith Lia.
From stdpp Require Import base option list strings gmap sorting.
Import ListNotations.

Local Open Scope string_scope.
Local Open Scope list_scope.

(** ** JavaScript helpers *)

(** A JS [Map] with string keys: insertion order is observable through
    [keys()] and [entries()], so it is an association list; [get]
    returns the first entry of the key. *)
Module JsMap.
Definition t (V : Type) : Type := list (string * V).

Fixpoint get {V : Type} (m : t V) (k : string) : option V :=
  match m with
  | [] => None
  | (k', v) :: m' => if String.eqb k' k then Some v else get m' k
  end.

Definition keys {V : Type} (m : t V) : list string := map fst m.

Definition entries {V : Type} (m : t V) : list (string * V) := m.
End JsMap.

(** [a || b] on optional strings: the empty string is falsy. *)
Definition or_string (a b : option string) : option string :=
  match a with
  | Some s => if String.eqb s "" then b else Some s
  | None => b
  end.

(** [String.prototype.toUpperCase] on ASCII strings such as the HTTP
    methods: the letters [a] to [z] are mapped to [A] to [Z] and every
    other character is kept. *)
Definition upper_ascii (c : ascii) : ascii :=
  let n := nat_of_ascii c in
  if (97 <=? n)%nat && (n <=? 122)%nat then ascii_of_nat (n - 32) else c.

Fixpoint toUpperCase (s : string) : string :=
  match s with
  | EmptyString => EmptyString
  | String c s' => String (upper_ascii c) (toUpperCase s')
  end.

(** Whether every character of the string is an ASCII character. *)
Definition is_ascii (s : string) : bool :=
  forallb (fun c => (nat_of_ascii c <? 128)%nat) (list_ascii_of_string s).

(** [String.prototype.endsWith] *)
Definition endsWith (s suffix : string) : bool :=
  let n := String.length s in
  let m := String.length suffix in
  (m <=? n)%nat && String.eqb (substring (n - m) m s) suffix.

(** ** Data model *)

Inductive ChangeType : Type := ChAdded | ChChanged | ChRemoved.

(** The lifecycle kind an assertion was registered under
    ([assertionResult.type]). *)
Inductive Lifecycle : Type := Requirement | Added | Changed | Removed.

(** The ['before' | 'after'] key handed to the data constructors. *)
Inductive Side : Type := before | after.

(** JSON values: documents, schema snippets, the caller's custom rule
    context and the snapshots carried by changes and results.  Numbers
    are integers here, no claim looks inside a value. *)
#[warnings="-register-all"]
Inductive Json : Type :=
| JNull
| JBool (b : bool)
| JNumber (n : Z)
| JString (s : string)
| JArray (items : list Json)
| JObject (members : list (string * Json)).

Record Change : Type := {
  changeType : ChangeType;
  change_value : Json
}.

(** [property.location.conceptualLocation.jsonSchemaTrail] is the only
    part of a [Field] the runner reads. *)
Record Field : Type := {
  jsonSchemaTrail : list string;
  field_value : Json
}.

Record RequestBody : Type := {
  contentType : string;
  properties : JsMap.t Field;
  body_value : Json
}.

Record Operation : Type := {
  method : string;
  path : string;
  operation_value : Json
}.

Record FieldNode : Type := {
  field_before : option Json;
  field_after : option Json;
  field_change : option Change
}.

Record BodyNode : Type := {
  body_before : option Json;
  body_after : option Json;
  body_change : option Change;
  fields : JsMap.t FieldNode
}.

Record RequestNode : Type := { bodies : JsMap.t BodyNode }.

Record EndpointNode : Type := {
  endpoint_method : string;
  endpoint_path : string;
  endpoint_before : option Json;
  endpoint_after : option Json;
  endpoint_change : option Change
}.

Record AssertionResult : Type := {
  type : Lifecycle;
  changeOrFact : Json;
  condition : string;
  passed : bool;
  error : option string
}.

Record Result : Type := {
  r_where : string;
  r_isMust : bool;
  r_change : Json;
  r_name : string;
  r_condition : string;
  r_passed : bool;
  r_error : option string;
  r_docsLink : option string;
  r_isShould : bool
}.

(** ** Rules and rulesets *)

(** Types the sources leave to [./utils] and [./assertions]: the rule
    context and the assertion collector. *)
Class Domain : Type := {
  RuleContext : Type;
  RequestAssertions : Type
}.

Section Model.
Context `{D : Domain}.

Definition Matcher : Type := RequestBody -> RuleContext -> bool.

(** A rule body returns nothing and registers on the collector it is
    given: it is a function from the collector to the collector. *)
Record RequestRule : Type := {
  name : string;
  docsLink : option string;
  matches : option Matcher;
  rule : RequestAssertions -> RuleContext -> RequestAssertions
}.

(** The other rule classes (operation, response, specification rules)
    fail [instanceof RequestRule]; only their name is kept. *)
Inductive Rule : Type :=
| ARequestRule (r : RequestRule)
| AnotherRule (n : string).

Record Ruleset : Type := {
  ruleset_name : string;
  ruleset_docsLink : option string;
  ruleset_matches : option Matcher;
  ruleset_rules : list Rule
}.

Inductive Rules : Type :=
| IsRule (r : Rule)
| IsRuleset (rs : Ruleset).

(** [RequestRule & RulesetData] *)
Record FlatRule : Type := {
  base : RequestRule;
  aliases : list string
}.

(** The argument object of [runRequestRules]. *)
Record Inputs : Type := {
  operation : EndpointNode;
  request : RequestNode;
  rules : list Rules;
  customRuleContext : Json;
  beforeApiSpec : Json;
  afterApiSpec : Json
}.

End Model.

(** ** Collaborators

    What the runner imports from [./data-constructors], [./utils] and
    [./assertions].  The runner is verified for every implementation of
    these functions. *)
Class Collaborators `{D : Domain} : Type := {
  createOperation : EndpointNode -> Side -> Json -> option Operation;
  createRequest : RequestNode -> string -> Side -> Json -> option RequestBody;
  createRulesetMatcher : option Matcher -> option Matcher -> Matcher;
  getRuleAliases : string -> string -> list string;
  createBeforeOperationContext : Operation -> Json -> RuleContext;
  createAfterOperationContext :
    Operation -> Json -> option ChangeType -> RuleContext;
  assertionLifecycleToText : Lifecycle -> string;
  createRequestAssertions : RequestAssertions;
  body_runBefore :
    RequestAssertions -> RequestBody -> option Change -> list AssertionResult;
  body_runAfter :
    RequestAssertions -> option RequestBody -> RequestBody -> option Change ->
    list AssertionResult;
  property_runBefore :
    RequestAssertions -> Field -> option Change -> list AssertionResult;
  property_runAfter :
    RequestAssertions -> option Field -> Field -> option Change ->
    list AssertionResult
}.

(** ** A state monad for local mutable variables *)

Module Run.
Section Monad.
Context {St : Type}.

Definition M (A : Type) : Type := St -> A * St.

Definition ret {A : Type} (a : A) : M A := fun s => (a, s).

Definition bind {A B : Type} (m : M A) (k : A -> M B) : M B :=
  fun s => let (a, s') := m s in k a s'.

Definition modify (f : St -> St) : M unit := fun s => (tt, f s).

(** [if (b) { m }] *)
Definition when (b : bool) (m : M unit) : M unit :=
  if b then m else ret tt.

(** [for (const x of xs) { f x }] *)
Fixpoint forM_ {A : Type} (xs : list A) (f : A -> M unit) : M unit :=
  match xs with
  | [] => ret tt
  | x :: xs' => bind (f x) (fun _ => forM_ xs' f)
  end.

Definition exec {A : Type} (m : M A) (s : St) : St := snd (m s).
End Monad.
Arguments M : clear implicits.
End Run.

Declare Scope run_scope.
Delimit Scope run_scope with run.
Notation "x <- m ;; k" := (Run.bind m (fun x => k))
  (at level 100, m at next level, right associativity) : run_scope.
Notation "m ;; k" := (Run.bind m (fun _ => k))
  (at level 100, right associativity) : run_scope.

(** ** rule-runner/request.ts *)

Section Request.
Context `{C : Collaborators}.
Local Open Scope run_scope.

(** *** getRequestRules

    The local array [requestRules] is the state; both [if]s of the loop
    body are tests of the same value's class, so they are one [match]. *)
Definition push_rule (fr : FlatRule) : Run.M (list FlatRule) unit :=
  Run.modify (fun requestRules => requestRules ++ [fr]).

Definition getRequestRules (rules : list Rules) : list FlatRule :=
  Run.exec
    (Run.forM_ rules (fun ruleOrRuleset =>
       match ruleOrRuleset with
       | IsRule (ARequestRule r) =>
           push_rule {| base := r; aliases := [] |}
       | IsRule (AnotherRule _) => Run.ret tt
       | IsRuleset rs =>
           Run.forM_ (ruleset_rules rs) (fun rule0 =>
             match rule0 with
             | ARequestRule r =>
                 push_rule
                   {| base :=
                        {| name := name r;
                           docsLink :=
                             or_string (docsLink r) (ruleset_docsLink rs);
                           matches :=
                             Some (createRulesetMatcher (matches r)
                                     (ruleset_matches rs));
                           rule := rule r |};
                      aliases := getRuleAliases (ruleset_name rs) (name r) |}
             | AnotherRule _ => Run.ret tt
             end)
       end))
    [].

(** *** Result assembly *)

Definition createRequestBodyResult (assertionResult : AssertionResult)
    (request : RequestBody) (operation : Operation) (r : RequestRule)
    : Result :=
  {| r_where :=
       assertionLifecycleToText (type assertionResult)
       ++ " request with content-type: " ++ contentType request
       ++ " in operation: " ++ toUpperCase (method operation)
       ++ " " ++ path operation;
     r_isMust := true;
     r_change := changeOrFact assertionResult;
     r_name := name r;
     r_condition := condition assertionResult;
     r_passed := passed assertionResult;
     r_error := error assertionResult;
     r_docsLink := docsLink r;
     r_isShould := false |}.

Definition createRequestPropertyResult (assertionResult : AssertionResult)
    (property : Field) (request : RequestBody) (operation : Operation)
    (r : RequestRule) : Result :=
  {| r_where :=
       assertionLifecycleToText (type assertionResult)
       ++ " property: " ++ String.concat "/" (jsonSchemaTrail property)
       ++ " request body: " ++ contentType request
       ++ " in operation: " ++ toUpperCase (method operation)
       ++ " " ++ path operation;
     r_isMust := true;
     r_change := changeOrFact assertionResult;
     r_name := name r;
     r_condition := condition assertionResult;
     r_passed := passed assertionResult;
     r_error := error assertionResult;
     r_docsLink := docsLink r;
     r_isShould := false |}.

(** *** runRequestRules *)

(** Calls that leave the runner, with their arguments. *)
Inductive Event : Type :=
| call_rule (r : FlatRule) (a : RequestAssertions) (c : RuleContext)
| call_matches (r : FlatRule) (b : RequestBody) (c : RuleContext)
| call_body_runBefore (b : RequestBody) (ch : option Change)
| call_body_runAfter (mb : option RequestBody) (b : RequestBody)
    (ch : option Change)
| call_property_runBefore (p : Field) (ch : option Change)
| call_property_runAfter (mp : option Field) (p : Field)
    (ch : option Change).

(** The [results] array and the calls made so far. *)
Record State : Type := {
  results : list Result;
  trace : list Event
}.

Definition push (rs : list Result) : Run.M State unit :=
  Run.modify (fun s => {| results := results s ++ rs; trace := trace s |}).

Definition call (e : Event) : Run.M State unit :=
  Run.modify (fun s => {| results := results s; trace := trace s ++ [e] |}).

(** [requestRule.rule(requestAssertions, context)] *)
Definition run_rule (requestRule : FlatRule) (a : RequestAssertions)
    (c : RuleContext) : Run.M State RequestAssertions :=
  call (call_rule requestRule a c) ;;
  Run.ret (rule (base requestRule) a c).

(** [!requestRule.matches || requestRule.matches(request, context)] *)
Definition no_matcher_or_matches (requestRule : FlatRule) (b : RequestBody)
    (c : RuleContext) : Run.M State bool :=
  match matches (base requestRule) with
  | None => Run.ret true
  | Some m => call (call_matches requestRule b c) ;; Run.ret (m b c)
  end.

Section Inputs.
Variable input : Inputs.

(** [request.bodies.get(contentType)?.change || null] *)
Definition bodyChange (contentType0 : string) : option Change :=
  match JsMap.get (bodies (request input)) contentType0 with
  | Some node => body_change node
  | None => None
  end.

(** [request.bodies.get(contentType)?.fields.get(key)?.change || null] *)
Definition propertyChange (contentType0 key : string) : option Change :=
  match JsMap.get (bodies (request input)) contentType0 with
  | Some node =>
      match JsMap.get (fields node) key with
      | Some f => field_change f
      | None => None
      end
  | None => None
  end.

(** Lines 128-177: the loop body over [request.bodies.keys()] of the
    before pass. *)
Definition before_content_type (requestRule : FlatRule)
    (beforeOperation : Operation) (beforeRulesContext : RuleContext)
    (requestAssertions : RequestAssertions) (contentType0 : string)
    : Run.M State unit :=
  match
    createRequest (request input) contentType0 before (beforeApiSpec input)
  with
  | Some beforeRequest =>
      ok <- no_matcher_or_matches requestRule beforeRequest
              beforeRulesContext ;;
      Run.when ok
        (call (call_body_runBefore beforeRequest (bodyChange contentType0)) ;;
         push (map (fun assertionResult =>
                      createRequestBodyResult assertionResult beforeRequest
                        beforeOperation (base requestRule))
                 (body_runBefore requestAssertions beforeRequest
                    (bodyChange contentType0))) ;;
         Run.forM_ (JsMap.entries (properties beforeRequest))
           (fun '(key, property) =>
              call (call_property_runBefore property
                      (propertyChange contentType0 key)) ;;
              push (map (fun assertionResult =>
                           createRequestPropertyResult assertionResult
                             property beforeRequest beforeOperation
                             (base requestRule))
                      (property_runBefore requestAssertions property
                         (propertyChange contentType0 key)))))
  | None => Run.ret tt
  end.

(** [maybeBeforeRequest?.properties.get(key) || null] *)
Definition maybeBeforeProperty (maybeBeforeRequest : option RequestBody)
    (key : string) : option Field :=
  match maybeBeforeRequest with
  | Some b => JsMap.get (properties b) key
  | None => None
  end.

(** Lines 188-246: the loop body of the after pass. *)
Definition after_content_type (requestRule : FlatRule)
    (afterOperation : Operation) (afterRulesContext : RuleContext)
    (requestAssertions : RequestAssertions) (contentType0 : string)
    : Run.M State unit :=
  let maybeBeforeRequest :=
    createRequest (request input) contentType0 before (beforeApiSpec input) in
  match
    createRequest (request input) contentType0 after (afterApiSpec input)
  with
  | Some afterRequest =>
      ok <- no_matcher_or_matches requestRule afterRequest
              afterRulesContext ;;
      Run.when ok
        (call (call_body_runAfter maybeBeforeRequest afterRequest
                 (bodyChange contentType0)) ;;
         push (map (fun assertionResult =>
                      createRequestBodyResult assertionResult afterRequest
                        afterOperation (base requestRule))
                 (body_runAfter requestAssertions maybeBeforeRequest
                    afterRequest (bodyChange contentType0))) ;;
         Run.forM_ (JsMap.entries (properties afterRequest))
           (fun '(key, property) =>
              call (call_property_runAfter
                      (maybeBeforeProperty maybeBeforeRequest key) property
                      (propertyChange contentType0 key)) ;;
              push (map (fun assertionResult =>
                           createRequestPropertyResult assertionResult
                             property afterRequest afterOperation
                             (base requestRule))
                      (property_runAfter requestAssertions
                         (maybeBeforeProperty maybeBeforeRequest key)
                         property (propertyChange contentType0 key)))))
  | None => Run.ret tt
  end.

(** [operation.change?.changeType || null] *)
Definition operationChangeType : option ChangeType :=
  match endpoint_change (operation input) with
  | Some ch => Some (changeType ch)
  | None => None
  end.

(** Lines 119-248: the loop body over the flattened rules. *)
Definition for_request_rule (beforeOperation afterOperation : option Operation)
    (requestRule : FlatRule) : Run.M State unit :=
  match beforeOperation with
  | Some beforeOperation0 =>
      let beforeRulesContext :=
        createBeforeOperationContext beforeOperation0
          (customRuleContext input) in
      requestAssertions <-
        run_rule requestRule createRequestAssertions beforeRulesContext ;;
      Run.forM_ (JsMap.keys (bodies (request input)))
        (before_content_type requestRule beforeOperation0 beforeRulesContext
           requestAssertions)
  | None => Run.ret tt
  end ;;
  match afterOperation with
  | Some afterOperation0 =>
      let afterRulesContext :=
        createAfterOperationContext afterOperation0 (customRuleContext input)
          operationChangeType in
      requestAssertions <-
        run_rule requestRule createRequestAssertions afterRulesContext ;;
      Run.forM_ (JsMap.keys (bodies (request input)))
        (after_content_type requestRule afterOperation0 afterRulesContext
           requestAssertions)
  | None => Run.ret tt
  end.

(** The whole function, run on an empty [results] array; the trace it
    starts from is the caller's. *)
Definition runRequestRules_from (t : list Event) : State :=
  let requestRules := getRequestRules (rules input) in
  let beforeOperation :=
    createOperation (operation input) before (beforeApiSpec input) in
  let afterOperation :=
    createOperation (operation input) after (afterApiSpec input) in
  Run.exec
    (Run.forM_ requestRules (for_request_rule beforeOperation afterOperation))
    {| results := []; trace := t |}.

(** The value returned: [return results]. *)
Definition runRequestRules : list Result :=
  results (runRequestRules_from []).

(** The calls the run makes, in order. *)
Definition runRequestRules_calls : list Event :=
  trace (runRequestRules_from []).

End Inputs.
End Request.

(** ** What a run produces, stated on lists

    The loops only ever append to [results] and to the trace.  The
    functions below give, per rule, per pass and per content type, what is
    appended; [runRequestRules_from_eq] proves that the loops compute
    exactly that. *)

Section Characterisation.
Context `{C : Collaborators}.

Definition extend (s : State) (rs : list Result) (es : list Event) : State :=
  {| results := results s ++ rs; trace := trace s ++ es |}.

(** [m] returns [a] after appending [rs] and [es], whatever the state. *)
Definition writes {A : Type} (m : Run.M State A) (a : A)
    (rs : list Result) (es : list Event) : Prop :=
  forall s, m s = (a, extend s rs es).

Section Inputs.
Variable input : Inputs.

Definition apiSpec (s : Side) : Json :=
  match s with
  | before => beforeApiSpec input
  | after => afterApiSpec input
  end.

(** The operation as it is on one side, when it exists there. *)
Definition operation_on (s : Side) : option Operation :=
  createOperation (operation input) s (apiSpec s).

(** The context of a pass. *)
Definition context_on (s : Side) (op : Operation) : RuleContext :=
  match s with
  | before => createBeforeOperationContext op (customRuleContext input)
  | after =>
      createAfterOperationContext op (customRuleContext input)
        (operationChangeType input)
  end.

(** The body of a content type as it is on one side. *)
Definition instance_on (s : Side) (contentType0 : string)
    : option RequestBody :=
  createRequest (request input) contentType0 s (apiSpec s).

(** The outcome of the matcher test: no matcher, or the matcher's
    answer. *)
Definition accepted (fr : FlatRule) (b : RequestBody) (c : RuleContext)
    : bool :=
  match matches (base fr) with
  | None => true
  | Some m => m b c
  end.

(** What the rule body leaves on a fresh collector. *)
Definition registered (fr : FlatRule) (c : RuleContext) : RequestAssertions :=
  rule (base fr) createRequestAssertions c.

Definition body_outcomes (s : Side) (a : RequestAssertions)
    (contentType0 : string) (b : RequestBody) : list AssertionResult :=
  match s with
  | before => body_runBefore a b (bodyChange input contentType0)
  | after =>
      body_runAfter a (instance_on before contentType0) b
        (bodyChange input contentType0)
  end.

Definition property_outcomes (s : Side) (a : RequestAssertions)
    (contentType0 key : string) (p : Field) : list AssertionResult :=
  match s with
  | before =>
      property_runBefore a p (propertyChange input contentType0 key)
  | after =>
      property_runAfter a
        (maybeBeforeProperty (instance_on before contentType0) key) p
        (propertyChange input contentType0 key)
  end.

(** Results for the body itself. *)
Definition body_results (s : Side) (fr : FlatRule) (op : Operation)
    (contentType0 : string) (b : RequestBody) : list Result :=
  map (fun ar => createRequestBodyResult ar b op (base fr))
    (body_outcomes s (registered fr (context_on s op)) contentType0 b).

(** Results for one property of the body. *)
Definition property_results (s : Side) (fr : FlatRule) (op : Operation)
    (contentType0 : string) (b : RequestBody) (kp : string * Field)
    : list Result :=
  map (fun ar => createRequestPropertyResult ar (snd kp) b op (base fr))
    (property_outcomes s (registered fr (context_on s op)) contentType0
       (fst kp) (snd kp)).

(** Results of one rule for one content type in one pass. *)
Definition content_type_results (s : Side) (fr : FlatRule) (op : Operation)
    (contentType0 : string) : list Result :=
  match instance_on s contentType0 with
  | Some b =>
      if accepted fr b (context_on s op) then
        body_results s fr op contentType0 b
        ++ flat_map (property_results s fr op contentType0 b)
             (JsMap.entries (properties b))
      else []
  | None => []
  end.

(** Results of one rule in one pass. *)
Definition pass_results (s : Side) (fr : FlatRule) : list Result :=
  match operation_on s with
  | Some op =>
      flat_map (content_type_results s fr op)
        (JsMap.keys (bodies (request input)))
  | None => []
  end.

Definition rule_results (fr : FlatRule) : list Result :=
  pass_results before fr ++ pass_results after fr.

(** The calls, in the same shape. *)
Definition matcher_calls (fr : FlatRule) (b : RequestBody) (c : RuleContext)
    : list Event :=
  match matches (base fr) with
  | None => []
  | Some _ => [call_matches fr b c]
  end.

Definition body_call (s : Side) (contentType0 : string) (b : RequestBody)
    : Event :=
  match s with
  | before => call_body_runBefore b (bodyChange input contentType0)
  | after =>
      call_body_runAfter (instance_on before contentType0) b
        (bodyChange input contentType0)
  end.

Definition property_call (s : Side) (contentType0 : string)
    (kp : string * Field) : Event :=
  match s with
  | before =>
      call_property_runBefore (snd kp)
        (propertyChange input contentType0 (fst kp))
  | after =>
      call_property_runAfter
        (maybeBeforeProperty (instance_on before contentType0) (fst kp))
        (snd kp) (propertyChange input contentType0 (fst kp))
  end.

Definition content_type_calls (s : Side) (fr : FlatRule) (op : Operation)
    (contentType0 : string) : list Event :=
  match instance_on s contentType0 with
  | Some b =>
      matcher_calls fr b (context_on s op)
      ++ (if accepted fr b (context_on s op) then
            body_call s contentType0 b
            :: map (property_call s contentType0)
                 (JsMap.entries (properties b))
          else [])
  | None => []
  end.

Definition pass_calls (s : Side) (fr : FlatRule) : list Event :=
  match operation_on s with
  | Some op =>
      call_rule fr createRequestAssertions (context_on s op)
      :: flat_map (content_type_calls s fr op)
           (JsMap.keys (bodies (request input)))
  | None => []
  end.

Definition rule_calls (fr : FlatRule) : list Event :=
  pass_calls before fr ++ pass_calls after fr.

(** Tells the matcher calls from the others. *)
Definition is_call_matches (e : Event) : bool :=
  match e with call_matches _ _ _ => true | _ => false end.

(** What a call made after the rule body in the pass of side [s] may be:
    the matcher on the body a content type has on that side, [runBefore]
    in the before pass on such a body or on one of its properties,
    [runAfter] in the after pass on such a body or property, together
    with the body of the same content type, or the property of the same
    key, of the before side when there is one. *)
Definition pass_call (s : Side) (op : Operation) (e : Event) : Prop :=
  match e with
  | call_rule _ _ _ => False
  | call_matches _ b c =>
      c = context_on s op /\
      exists contentType0,
        In contentType0 (JsMap.keys (bodies (request input))) /\
        instance_on s contentType0 = Some b
  | call_body_runBefore b ch =>
      s = before /\
      exists contentType0,
        In contentType0 (JsMap.keys (bodies (request input))) /\
        instance_on before contentType0 = Some b /\
        ch = bodyChange input contentType0
  | call_body_runAfter mb b ch =>
      s = after /\
      exists contentType0,
        In contentType0 (JsMap.keys (bodies (request input))) /\
        instance_on after contentType0 = Some b /\
        mb = instance_on before contentType0 /\
        ch = bodyChange input contentType0
  | call_property_runBefore p ch =>
      s = before /\
      exists contentType0 b key,
        In contentType0 (JsMap.keys (bodies (request input))) /\
        instance_on before contentType0 = Some b /\
        In (key, p) (JsMap.entries (properties b)) /\
        ch = propertyChange input contentType0 key
  | call_property_runAfter mp p ch =>
      s = after /\
      exists contentType0 b key,
        In contentType0 (JsMap.keys (bodies (request input))) /\
        instance_on after contentType0 = Some b /\
        In (key, p) (JsMap.entries (properties b)) /\
        mp =
          match instance_on before contentType0 with
          | Some b0 => JsMap.get (properties b0) key
          | None => None
          end /\
        ch = propertyChange input contentType0 key
  end.

End Inputs.
End Characterisation.

(** ** What the flattening produces, stated on lists *)

Section Flattening.
Context `{C : Collaborators}.

(** A rule given on its own. *)
Definition standalone (r : RequestRule) : FlatRule :=
  {| base := r; aliases := [] |}.

(** A rule given inside the ruleset [rs]. *)
Definition contained (rs : Ruleset) (r : RequestRule) : FlatRule :=
  {| base :=
       {| name := name r;
          docsLink := or_string (docsLink r) (ruleset_docsLink rs);
          matches :=
            Some (createRulesetMatcher (matches r) (ruleset_matches rs));
          rule := rule r |};
     aliases := getRuleAliases (ruleset_name rs) (name r) |}.

(** The request rules among a ruleset's rules, in order. *)
Definition request_rules (l : list Rule) : list RequestRule :=
  flat_map
    (fun x => match x with ARequestRule r => [r] | AnotherRule _ => [] end) l.

(** What one entry of the input contributes. *)
Definition expansion (x : Rules) : list FlatRule :=
  match x with
  | IsRule (ARequestRule r) => [standalone r]
  | IsRule (AnotherRule _) => []
  | IsRuleset rs => map (contained rs) (request_rules (ruleset_rules rs))
  end.

(** [m] appends [out] to the array, whatever it holds. *)
Definition appends (m : Run.M (list FlatRule) unit) (out : list FlatRule)
    : Prop :=
  forall s, m s = (tt, s ++ out).

End Flattening.

(** ** The parts of [./utils] and [./assertions] the specification
       describes *)

Module Spec.

(** Modelled from the spec: what a predicate may raise.  Section 7: a
    structured failure carrying a message (the [RuleError] of the tests)
    or any other exception, which has a message too. *)
Inductive Exn : Type :=
| RuleError (msg : string)
| OtherError (msg : string).

Definition message (e : Exn) : string :=
  match e with RuleError m => m | OtherError m => m end.

(** A call that either raises or returns. *)
Definition Exc (A : Type) : Type := (Exn + A)%type.

Definition returnE {A : Type} (a : A) : Exc A := inr a.

Definition bindE {A B : Type} (m : Exc A) (k : A -> Exc B) : Exc B :=
  match m with inl e => inl e | inr a => k a end.

(** [try { body } catch (e) { handler e }] *)
Definition try_catch {A : Type} (body : Exc A) (handler : Exn -> Exc A)
    : Exc A :=
  match body with inl e => handler e | inr a => inr a end.

Fixpoint mapE {A B : Type} (f : A -> Exc B) (l : list A) : Exc (list B) :=
  match l with
  | [] => returnE []
  | x :: l' =>
      bindE (f x) (fun y => bindE (mapE f l') (fun ys => returnE (y :: ys)))
  end.

Section Utils.
Context `{D : Domain}.

(** Modelled from the spec: [createRulesetMatcher] of [./utils], which is
    not among the sources.  Section 4.2: the rule's matcher is combined
    with the owning ruleset's matcher via logical AND; an absent matcher
    gates nothing (section 3). *)
Definition createRulesetMatcher (ruleMatcher rulesetMatcher : option Matcher)
    : Matcher :=
  fun b c =>
    match ruleMatcher with Some m => m b c | None => true end
    && match rulesetMatcher with Some m => m b c | None => true end.

End Utils.

(** Modelled from the spec: [getRuleAliases] of [./utils], which is not
    among the sources.  Section 3: a contained rule's traceable name is
    the ruleset's name, [" > "], the rule's name. *)
Definition getRuleAliases (rulesetName ruleName : string) : list string :=
  [(rulesetName ++ " > " ++ ruleName)%string].

(** Modelled from the spec: the registrations of [./assertions], which is
    not among the sources.  Section 4.3: a registration is a description
    and a predicate under a lifecycle kind, kept in an ordered list per
    kind; [changed] predicates take the before and the after instance,
    the others one instance. *)
Record Assertions (T : Type) : Type := {
  requirement : list (string * (T -> Exc unit));
  added : list (string * (T -> Exc unit));
  changed : list (string * (T -> T -> Exc unit));
  removed : list (string * (T -> Exc unit))
}.
Arguments requirement {T} _.
Arguments added {T} _.
Arguments changed {T} _.
Arguments removed {T} _.

(** Modelled from the spec: the collector a request rule body receives,
    with an assertion set for the body and one for its properties. *)
Record Collector : Type := {
  body : Assertions RequestBody;
  property : Assertions Field
}.

Definition no_assertions {T : Type} : Assertions T :=
  {| requirement := []; added := []; changed := []; removed := [] |}.

(** Modelled from the spec: [createRequestAssertions], a collector with
    nothing registered. *)
Definition createRequestAssertions : Collector :=
  {| body := no_assertions; property := no_assertions |}.

Section Registration.
Context {T : Type}.

(** Modelled from the spec: the four registration methods; calling one
    appends to the list of its kind and runs nothing. *)
Definition register_requirement (description : string)
    (predicate : T -> Exc unit) (a : Assertions T) : Assertions T :=
  {| requirement := requirement a ++ [(description, predicate)];
     added := added a; changed := changed a; removed := removed a |}.

Definition register_added (description : string)
    (predicate : T -> Exc unit) (a : Assertions T) : Assertions T :=
  {| requirement := requirement a;
     added := added a ++ [(description, predicate)];
     changed := changed a; removed := removed a |}.

Definition register_changed (description : string)
    (predicate : T -> T -> Exc unit) (a : Assertions T) : Assertions T :=
  {| requirement := requirement a; added := added a;
     changed := changed a ++ [(description, predicate)];
     removed := removed a |}.

Definition register_removed (description : string)
    (predicate : T -> Exc unit) (a : Assertions T) : Assertions T :=
  {| requirement := requirement a; added := added a; changed := changed a;
     removed := removed a ++ [(description, predicate)] |}.

End Registration.

Definition has_type (k : ChangeType) (change : option Change) : bool :=
  match change with
  | Some ch =>
      match changeType ch, k with
      | ChAdded, ChAdded | ChChanged, ChChanged | ChRemoved, ChRemoved => true
      | _, _ => false
      end
  | None => false
  end.

(** Which lifecycle kinds the pass of a side runs for an entity with a
    given classification. *)
Definition Schedule : Type := Side -> Lifecycle -> option Change -> bool.

(** Modelled from the spec: the kinds [runBeforePass] and [runAfterPass]
    of [./assertions] run.  Section 4.3: the before pass runs
    [requirement] unconditionally and [removed] only if the
    classification is Removed; the after pass runs [requirement]
    unconditionally, [added] only if it is Added, [changed] only if it is
    Changed. *)
Definition schedule : Schedule :=
  fun s k change =>
    match s, k with
    | _, Requirement => true
    | before, Removed => has_type ChRemoved change
    | after, Added => has_type ChAdded change
    | after, Changed => has_type ChChanged change
    | _, _ => false
    end.

Section Passes.
Context {T : Type}.

(** The snapshot an outcome reports for an instance and its change. *)
Variable snapshot : T -> option Change -> Json.

(** The kinds the executor runs. *)
Variable runs : Schedule.

(** Modelled from the spec: one predicate invocation, wrapped on its own.
    Section 4.3: a predicate that returns gives [passed = true]; any
    raised failure is caught and gives [passed = false] with the message
    as [error]. *)
Definition invoke (k : Lifecycle) (description : string) (fact : Json)
    (predicate_call : Exc unit) : Exc AssertionResult :=
  try_catch
    (bindE predicate_call (fun _ =>
       returnE {| type := k; changeOrFact := fact; condition := description;
                  passed := true; error := None |}))
    (fun e =>
       returnE {| type := k; changeOrFact := fact; condition := description;
                  passed := false; error := Some (message e) |}).

(** Modelled from the spec: the invocations of a pass on an instance, in
    order, each with its kind and description.  Section 4.3: every
    registered assertion of a kind that runs is invoked; [requirement],
    [added] and [removed] predicates take the instance of the pass,
    [changed] predicates take the before instance and the instance. *)
Definition invocations (s : Side) (a : Assertions T)
    (beforeInstance : option T) (instance : T) (change : option Change)
    : list (Lifecycle * string * Exc unit) :=
  (if runs s Requirement change then
     map (fun dp => (Requirement, fst dp, snd dp instance)) (requirement a)
   else [])
  ++ (if runs s Added change then
        map (fun dp => (Added, fst dp, snd dp instance)) (added a)
      else [])
  ++ (if runs s Changed change then
        match beforeInstance with
        | Some b =>
            map (fun dp => (Changed, fst dp, snd dp b instance)) (changed a)
        | None => []
        end
      else [])
  ++ (if runs s Removed change then
        map (fun dp => (Removed, fst dp, snd dp instance)) (removed a)
      else []).

Definition invoke_all (fact : Json)
    (calls : list (Lifecycle * string * Exc unit))
    : Exc (list AssertionResult) :=
  mapE (fun c => invoke (fst (fst c)) (snd (fst c)) fact (snd c)) calls.

(** Modelled from the spec: a pass of the executor. *)
Definition run (s : Side) (a : Assertions T) (beforeInstance : option T)
    (instance : T) (change : option Change) : Exc (list AssertionResult) :=
  invoke_all (snapshot instance change)
    (invocations s a beforeInstance instance change).

End Passes.

(** Modelled from the spec: [runBeforePass] and [runAfterPass], the passes
    under the schedule of section 4.3. *)
Definition runBefore {T : Type} (snapshot : T -> option Change -> Json)
    (a : Assertions T) (beforeInstance : T) (change : option Change)
    : Exc (list AssertionResult) :=
  run snapshot schedule before a None beforeInstance change.

Definition runAfter {T : Type} (snapshot : T -> option Change -> Json)
    (a : Assertions T) (beforeInstance : option T) (afterInstance : T)
    (change : option Change) : Exc (list AssertionResult) :=
  run snapshot schedule after a beforeInstance afterInstance change.

End Spec.

(** ** The CLI's rule-runner factory (src/unnamed/part_000) *)

(** The property names an object literal inherits from
    [Object.prototype]. *)
Definition object_prototype_names : list string :=
  ["constructor"; "hasOwnProperty"; "isPrototypeOf"; "propertyIsEnumerable";
   "toLocaleString"; "toString"; "valueOf"; "__proto__";
   "__defineGetter__"; "__defineSetter__"; "__lookupGetter__";
   "__lookupSetter__"].

(** [name in object], for an object literal whose own entries are [m]:
    the operator answers true for an own entry and for a property the
    object inherits. *)
Definition in_object {V : Type} (name0 : string) (m : gmap string V) : bool :=
  bool_decide (is_Some (m !! name0))
  || existsb (String.eqb name0) object_prototype_names.

Section Factory.
Context `{D : Domain}.

(** The value type of the [StandardRulesets] catalogue. *)
Variable Standard : Type.

(** An entry of [config.ruleset]. *)
Record RulesetRef : Type := {
  ref_name : string;
  ref_config : Json
}.

Record OpticCliConfig : Type := { ruleset : list RulesetRef }.

(** An element of [response.rulesets]; unknown names give [null]. *)
Record HostedRuleset : Type := {
  hosted_name : string;
  uploaded_at : string;
  url : string
}.

Record HostedEntry : Type := {
  entry_uploaded_at : string;
  entry_url : string
}.

(** The argument of [RulesetConfig.prepareRulesets]. *)
Record InputPayload : Type := {
  payload_ruleset : list RulesetRef;
  payload_localRulesets : gmap string string;
  payload_standardRulesets : gmap string Standard;
  payload_hostedRulesets : gmap string HostedEntry
}.

(** What [prepareRulesets] resolves to. *)
Record Prepared : Type := {
  prepared_rulesets : list Ruleset;
  warnings : list string
}.

(** [new RuleRunner(rules)] keeps the rules it is given. *)
Record RuleRunner : Type := { runner_rules : list Rules }.

(** The catalogue, the registry client and the resolution step are
    imported from other packages. *)
Variables (StandardRulesets : gmap string Standard)
  (getManyRulesetsByName : list string -> list (option HostedRuleset))
  (prepareRulesets : InputPayload -> Prepared).

Definition isLocalJsFile (name0 : string) : bool := endsWith name0 ".js".

(** The function's local variables and the error stream of the console. *)
Record Frame : Type := {
  rulesets : list Ruleset;
  rulesToFetch : list string;
  localRulesets : gmap string string;
  hostedRulesets : gmap string HostedEntry;
  stderr : list string
}.

Definition set_rulesets (v : list Ruleset) (f : Frame) : Frame :=
  {| rulesets := v; rulesToFetch := rulesToFetch f;
     localRulesets := localRulesets f; hostedRulesets := hostedRulesets f;
     stderr := stderr f |}.

Definition push_rulesToFetch (v : string) (f : Frame) : Frame :=
  {| rulesets := rulesets f; rulesToFetch := rulesToFetch f ++ [v];
     localRulesets := localRulesets f; hostedRulesets := hostedRulesets f;
     stderr := stderr f |}.

Definition set_localRuleset (k v : string) (f : Frame) : Frame :=
  {| rulesets := rulesets f; rulesToFetch := rulesToFetch f;
     localRulesets := <[k := v]> (localRulesets f);
     hostedRulesets := hostedRulesets f; stderr := stderr f |}.

Definition set_hostedRuleset (k : string) (v : HostedEntry) (f : Frame)
    : Frame :=
  {| rulesets := rulesets f; rulesToFetch := rulesToFetch f;
     localRulesets := localRulesets f;
     hostedRulesets := <[k := v]> (hostedRulesets f); stderr := stderr f |}.

(** [console.error(line)] *)
Definition console_error (line : string) (f : Frame) : Frame :=
  {| rulesets := rulesets f; rulesToFetch := rulesToFetch f;
     localRulesets := localRulesets f; hostedRulesets := hostedRulesets f;
     stderr := stderr f ++ [line] |}.

Local Open Scope run_scope.

Definition generateRuleRunner_body (config : OpticCliConfig)
    (checksEnabled : bool) : Run.M Frame RuleRunner :=
  Run.when checksEnabled
    (Run.forM_ (ruleset config) (fun rule0 =>
       if in_object (ref_name rule0) StandardRulesets then
         Run.ret tt
       else if isLocalJsFile (ref_name rule0) then
         Run.modify (set_localRuleset (ref_name rule0) (ref_name rule0))
       else Run.modify (push_rulesToFetch (ref_name rule0))) ;;
     toFetch <- (fun f => (rulesToFetch f, f)) ;;
     let response := getManyRulesetsByName toFetch in
     Run.forM_ response (fun hostedRuleset =>
       match hostedRuleset with
       | Some h =>
           Run.modify
             (set_hostedRuleset (hosted_name h)
                {| entry_uploaded_at := uploaded_at h; entry_url := url h |})
       | None => Run.ret tt
       end) ;;
     payload <-
       (fun f =>
          ({| payload_ruleset := ruleset config;
              payload_localRulesets := localRulesets f;
              payload_standardRulesets := StandardRulesets;
              payload_hostedRulesets := hostedRulesets f |}, f)) ;;
     let results0 := prepareRulesets payload in
     Run.modify (set_rulesets (prepared_rulesets results0)) ;;
     Run.forM_ (warnings results0) (fun warning =>
       Run.modify (console_error warning))) ;;
  rs <- (fun f => (rulesets f, f)) ;;
  Run.ret {| runner_rules := map IsRuleset rs |}.

(** The runner returned and the error stream after the call. *)
Definition generateRuleRunner (config : OpticCliConfig)
    (checksEnabled : bool) (stderr0 : list string)
    : RuleRunner * list string :=
  let (runner, f) :=
    generateRuleRunner_body config checksEnabled
      {| rulesets := []; rulesToFetch := []; localRulesets := ∅;
         hostedRulesets := ∅; stderr := stderr0 |} in
  (runner, stderr f).

End Factory.

Arguments payload_ruleset {Standard} _.
Arguments payload_localRulesets {Standard} _.
Arguments payload_standardRulesets {Standard} _.
Arguments payload_hostedRulesets {Standard} _.
Arguments generateRuleRunner {D Standard} _ _ _ _ _ _.
Arguments generateRuleRunner_body {D Standard} _ _ _ _ _ _.

(** ** Collaborators that follow the specification *)

Section SpecCollaborators.
Variable Ctx : Type.

(** The collector is the specification's. *)
Definition spec_domain : Domain :=
  {| RuleContext := Ctx; RequestAssertions := Spec.Collector |}.

Variable C : @Collaborators spec_domain.
Variables (body_snapshot : RequestBody -> option Change -> Json)
  (property_snapshot : Field -> option Change -> Json).

(** [C]'s collector is the specification's and its executor runs the
    kinds of the schedule [runs]: what it returns is what [Spec.run]
    returns. *)
Record executes (runs : Spec.Schedule) : Prop := {
  fresh_collector :
    @createRequestAssertions spec_domain C = Spec.createRequestAssertions;
  body_runBefore_runs :
    forall (a : Spec.Collector) b ch,
      Spec.run body_snapshot runs before (Spec.body a) None b ch =
      inr (@body_runBefore spec_domain C a b ch);
  body_runAfter_runs :
    forall (a : Spec.Collector) mb b ch,
      Spec.run body_snapshot runs after (Spec.body a) mb b ch =
      inr (@body_runAfter spec_domain C a mb b ch);
  property_runBefore_runs :
    forall (a : Spec.Collector) p ch,
      Spec.run property_snapshot runs before (Spec.property a) None p ch =
      inr (@property_runBefore spec_domain C a p ch);
  property_runAfter_runs :
    forall (a : Spec.Collector) mp p ch,
      Spec.run property_snapshot runs after (Spec.property a) mp p ch =
      inr (@property_runAfter spec_domain C a mp p ch)
}.

End SpecCollaborators.

(** Whether assertions of kind [k] are invoked in the pass of side [s]
    for an entity with classification [ch]: the kind runs, and a
    [changed] assertion has a before instance to look at. *)
Definition applicable (runs : Spec.Schedule) (s : Side) (k : Lifecycle)
    (has_before : bool) (ch : option Change) : bool :=
  runs s k ch && match k with Changed => has_before | _ => true end.

(** The test [!matcher || matcher(b, c)]. *)
Definition passes {D : Domain} (matcher : option Matcher) (b : RequestBody)
    (c : RuleContext) : bool :=
  match matcher with Some m => m b c | None => true end.

(** How many assertions of kind [k] are registered. *)
Definition registered_count {T : Type} (k : Lifecycle)
    (a : Spec.Assertions T) : nat :=
  match k with
  | Requirement => length (Spec.requirement a)
  | Added => length (Spec.added a)
  | Changed => length (Spec.changed a)
  | Removed => length (Spec.removed a)
  end.

Definition Lifecycle_eqb (k k' : Lifecycle) : bool :=
  match k, k' with
  | Requirement, Requirement | Added, Added | Changed, Changed
  | Removed, Removed => true
  | _, _ => false
  end.

(** How many Results an entity gets in a pass: the registrations of the
    kinds that run. *)
Definition applicable_count {T : Type} (runs : Spec.Schedule) (s : Side)
    (has_before : bool) (ch : option Change) (a : Spec.Assertions T) : nat :=
  fold_right
    (fun k n =>
       (if applicable runs s k has_before ch then registered_count k a
        else 0) + n)
    0 [Requirement; Added; Changed; Removed].

Definition is_some {A : Type} (o : option A) : bool :=
  match o with Some _ => true | None => false end.

(** How an outcome must relate to the invocation it comes from. *)
Definition outcome_of (call : Lifecycle * string * Spec.Exc unit)
    (ar : AssertionResult) : Prop :=
  type ar = fst (fst call) /\
  condition ar = snd (fst call) /\
  match snd call with
  | inr _ => passed ar = true /\ error ar = None
  | inl e => passed ar = false /\ error ar = Some (Spec.message e)
  end.

(** How a Result must relate to the invocation it comes from: the
    condition is the assertion's description; a predicate that returns
    gives a passing Result without error, a predicate that raises gives a
    failing Result whose error is the raised message. *)
Definition result_of (call : Lifecycle * string * Spec.Exc unit)
    (r : Result) : Prop :=
  r_condition r = snd (fst call) /\
  match snd call with
  | inr _ => r_passed r = true /\ r_error r = None
  | inl e => r_passed r = false /\ r_error r = Some (Spec.message e)
  end.

(** ** A run, as the predicate invocations it asks for

    The rule body registers on the collector of the specification; the
    executor invokes, for a body and for each of its properties, the
    registrations of the kinds that the schedule [runs] in the pass. *)

Section RunInvocations.
Context (Ctx : Type) {C : @Collaborators (spec_domain Ctx)}.
Variable runs : Spec.Schedule.
Variable input : @Inputs (spec_domain Ctx).

(** What [runAfter] is given of the before side; [runBefore] is given
    nothing. *)
Definition before_body (s : Side) (contentType0 : string)
    : option RequestBody :=
  match s with
  | before => None
  | after => instance_on input before contentType0
  end.

Definition before_property (s : Side) (contentType0 key : string)
    : option Field :=
  match s with
  | before => None
  | after => maybeBeforeProperty (instance_on input before contentType0) key
  end.

Definition body_invocations (s : Side) (fr : FlatRule) (op : Operation)
    (contentType0 : string) (b : RequestBody)
    : list (Lifecycle * string * Spec.Exc unit) :=
  Spec.invocations runs s (Spec.body (registered fr (context_on input s op)))
    (before_body s contentType0) b (bodyChange input contentType0).

Definition property_invocations (s : Side) (fr : FlatRule) (op : Operation)
    (contentType0 : string) (kp : string * Field)
    : list (Lifecycle * string * Spec.Exc unit) :=
  Spec.invocations runs s
    (Spec.property (registered fr (context_on input s op)))
    (before_property s contentType0 (fst kp)) (snd kp)
    (propertyChange input contentType0 (fst kp)).

Definition content_type_invocations (s : Side) (fr : FlatRule)
    (op : Operation) (contentType0 : string)
    : list (Lifecycle * string * Spec.Exc unit) :=
  match instance_on input s contentType0 with
  | Some b =>
      if accepted fr b (context_on input s op) then
        body_invocations s fr op contentType0 b
        ++ flat_map (property_invocations s fr op contentType0)
             (JsMap.entries (properties b))
      else []
  | None => []
  end.

Definition pass_invocations (s : Side) (fr : FlatRule)
    : list (Lifecycle * string * Spec.Exc unit) :=
  match operation_on input s with
  | Some op =>
      flat_map (content_type_invocations s fr op)
        (JsMap.keys (bodies (request input)))
  | None => []
  end.

(** Every invocation of a run, in the order of the run. *)
Definition run_invocations : list (Lifecycle * string * Spec.Exc unit) :=
  flat_map (fun fr => pass_invocations before fr ++ pass_invocations after fr)
    (getRequestRules (rules input)).

(** The same, counted from the registrations. *)
Definition body_count (s : Side) (fr : FlatRule) (op : Operation)
    (contentType0 : string) : nat :=
  applicable_count runs s (is_some (before_body s contentType0))
    (bodyChange input contentType0)
    (Spec.body (registered fr (context_on input s op))).

Definition property_count (s : Side) (fr : FlatRule) (op : Operation)
    (contentType0 : string) (kp : string * Field) : nat :=
  applicable_count runs s
    (is_some (before_property s contentType0 (fst kp)))
    (propertyChange input contentType0 (fst kp))
    (Spec.property (registered fr (context_on input s op))).

Definition content_type_count (s : Side) (fr : FlatRule) (op : Operation)
    (contentType0 : string) : nat :=
  match instance_on input s contentType0 with
  | Some b =>
      if accepted fr b (context_on input s op) then
        body_count s fr op contentType0
        + list_sum
            (map (property_count s fr op contentType0)
               (JsMap.entries (properties b)))
      else 0
  | None => 0
  end.

Definition pass_count (s : Side) (fr : FlatRule) : nat :=
  match operation_on input s with
  | Some op =>
      list_sum
        (map (content_type_count s fr op)
           (JsMap.keys (bodies (request input))))
  | None => 0
  end.

(** How many Results a run is to give. *)
Definition run_count : nat :=
  list_sum
    (map (fun fr => pass_count before fr + pass_count after fr)
       (getRequestRules (rules input))).

End RunInvocations.

(** ** A small implementation of the collaborators, for examples

    Nodes carry the values of both sides; the data constructors read
    them; the context is the operation, the custom context and the
    operation's change type; the executor is the specification's. *)
Module Fixture.

Record Context : Type := {
  ctx_operation : Operation;
  ctx_custom : Json;
  ctx_operationChange : option ChangeType
}.

Definition domain : Domain := spec_domain Context.

Definition side_value (s : Side) (b a : option Json) : option Json :=
  match s with before => b | after => a end.

Definition createOperation (node : EndpointNode) (s : Side) (doc : Json)
    : option Operation :=
  match side_value s (endpoint_before node) (endpoint_after node) with
  | Some v =>
      Some {| method := endpoint_method node; path := endpoint_path node;
              operation_value := v |}
  | None => None
  end.

Definition createField (s : Side) (kf : string * FieldNode)
    : list (string * Field) :=
  match side_value s (field_before (snd kf)) (field_after (snd kf)) with
  | Some v => [(fst kf, {| jsonSchemaTrail := [fst kf]; field_value := v |})]
  | None => []
  end.

Definition createRequest (node : RequestNode) (contentType0 : string)
    (s : Side) (doc : Json) : option RequestBody :=
  match JsMap.get (bodies node) contentType0 with
  | Some bn =>
      match side_value s (body_before bn) (body_after bn) with
      | Some v =>
          Some {| contentType := contentType0;
                  properties := flat_map (createField s) (fields bn);
                  body_value := v |}
      | None => None
      end
  | None => None
  end.

Definition body_snapshot (b : RequestBody) (ch : option Change) : Json :=
  match ch with Some c => change_value c | None => body_value b end.

Definition property_snapshot (p : Field) (ch : option Change) : Json :=
  match ch with Some c => change_value c | None => field_value p end.

Definition assertionLifecycleToText (k : Lifecycle) : string :=
  match k with
  | Requirement => "requirement for"
  | Added => "added"
  | Changed => "changed"
  | Removed => "removed"
  end.

(** The outcomes of an executor call that returned. *)
Definition returned (x : Spec.Exc (list AssertionResult))
    : list AssertionResult :=
  match x with inr l => l | inl _ => [] end.

Definition collaborators : @Collaborators domain :=
  @Build_Collaborators domain
    createOperation
    createRequest
    (@Spec.createRulesetMatcher domain)
    Spec.getRuleAliases
    (fun op custom =>
       {| ctx_operation := op; ctx_custom := custom;
          ctx_operationChange := None |})
    (fun op custom ch =>
       {| ctx_operation := op; ctx_custom := custom;
          ctx_operationChange := ch |})
    assertionLifecycleToText
    Spec.createRequestAssertions
    (fun a b ch => returned (Spec.runBefore body_snapshot (Spec.body a) b ch))
    (fun a mb b ch =>
       returned (Spec.runAfter body_snapshot (Spec.body a) mb b ch))
    (fun a p ch =>
       returned (Spec.runBefore property_snapshot (Spec.property a) p ch))
    (fun a mp p ch =>
       returned (Spec.runAfter property_snapshot (Spec.property a) mp p ch)).

End Fixture.

(** ** Example inputs, after the scenarios of request-rules.test.ts *)

Module Examples.
Import Fixture.

Definition schema (type0 : string) : Json :=
  JObject [("type", JString type0)].

(** [GET /api/users], present on both sides. *)
Definition users_get : EndpointNode :=
  {| endpoint_method := "get"; endpoint_path := "/api/users";
     endpoint_before := Some (JObject []); endpoint_after := Some (JObject []);
     endpoint_change := None |}.

(** A JSON body added by the change, with one property. *)
Definition added_body : BodyNode :=
  {| body_before := None;
     body_after := Some (schema "object");
     body_change :=
       Some {| changeType := ChAdded; change_value := schema "object" |};
     fields :=
       [("lookAtMe",
         {| field_before := None;
            field_after := Some (schema "string");
            field_change :=
              Some {| changeType := ChAdded;
                      change_value := schema "string" |} |})] |}.

(** A JSON body present on both sides and unchanged, with one property. *)
Definition unchanged_body : BodyNode :=
  {| body_before := Some (schema "object");
     body_after := Some (schema "object");
     body_change := None;
     fields :=
       [("lookAtMe",
         {| field_before := Some (schema "string");
            field_after := Some (schema "string");
            field_change := None |})] |}.

Definition has_type_member (v : Json) : bool :=
  match v with
  | JObject members =>
      match JsMap.get members "type" with Some _ => true | None => false end
  | _ => false
  end.

(** [requestAssertions.body.requirement('must contain a type', ...)] *)
Definition must_contain_a_type (a : @RequestAssertions domain)
    (c : @RuleContext domain) : @RequestAssertions domain :=
  {| Spec.body :=
       Spec.register_requirement "must contain a type"
         (fun b : RequestBody =>
            if has_type_member (body_value b) then inr tt
            else inl (Spec.RuleError "request body does not have `type`"))
         (Spec.body a);
     Spec.property := Spec.property a |}.

Definition no_required_removal : @RequestRule domain :=
  {| name := "no-required-removal"; docsLink := Some "";
     matches := None; rule := must_contain_a_type |}.

Definition breaking_changes : @Ruleset domain :=
  {| ruleset_name := "Breaking Changes";
     ruleset_docsLink := Some "https://example.com/breaking-changes";
     ruleset_matches := None;
     ruleset_rules := [ARequestRule no_required_removal] |}.

Definition added_body_input : @Inputs domain :=
  {| operation := users_get;
     request := {| bodies := [("application/json", added_body)] |};
     rules := [IsRuleset breaking_changes];
     customRuleContext := JNull;
     beforeApiSpec := JObject [];
     afterApiSpec := JObject [] |}.

Definition xml_matcher : @Matcher domain :=
  fun (b : RequestBody) (_ : @RuleContext domain) =>
    String.eqb (contentType b) "application/xml".

(** A rule that only looks at XML bodies. *)
Definition xml_only : @RequestRule domain :=
  {| name := "request"; docsLink := None;
     matches := Some xml_matcher;
     rule := must_contain_a_type |}.

Definition unchanged_body_input : @Inputs domain :=
  {| operation := users_get;
     request := {| bodies := [("application/json", unchanged_body)] |};
     rules := [IsRule (ARequestRule xml_only)];
     customRuleContext := JNull;
     beforeApiSpec := JObject [];
     afterApiSpec := JObject [] |}.

(** The rule of the tests of body requirements, on its own. *)
Definition request_type : @RequestRule domain :=
  {| name := "request type"; docsLink := None; matches := None;
     rule := must_contain_a_type |}.

(** A body whose schema is the empty object on both sides. *)
Definition untyped_body : BodyNode :=
  {| body_before := Some (JObject []);
     body_after := Some (JObject []);
     body_change := None;
     fields := [] |}.

Definition typed_input : @Inputs domain :=
  {| operation := users_get;
     request := {| bodies := [("application/json", unchanged_body)] |};
     rules := [IsRule (ARequestRule request_type)];
     customRuleContext := JNull;
     beforeApiSpec := JObject [];
     afterApiSpec := JObject [] |}.

Definition untyped_input : @Inputs domain :=
  {| operation := users_get;
     request := {| bodies := [("application/json", untyped_body)] |};
     rules := [IsRule (ARequestRule request_type)];
     customRuleContext := JNull;
     beforeApiSpec := JObject [];
     afterApiSpec := JObject [] |}.

(** The operation and the bodies the data constructors build from the
    nodes above. *)
Definition users_get_operation : Operation :=
  {| method := "get"; path := "/api/users"; operation_value := JObject [] |}.

Definition look_at_me : Field :=
  {| jsonSchemaTrail := ["lookAtMe"]; field_value := schema "string" |}.

Definition json_body : RequestBody :=
  {| contentType := "application/json";
     properties := [("lookAtMe", look_at_me)];
     body_value := schema "object" |}.

End Examples.

(** ** More on the runner: helpers for statements *)

Section RunnerExtras.
Context `{D : Domain}.

(** The same argument object with other rules. *)
Definition with_rules (input : Inputs) (l : list Rules) : Inputs :=
  {| operation := operation input;
     request := request input;
     rules := l;
     customRuleContext := customRuleContext input;
     beforeApiSpec := beforeApiSpec input;
     afterApiSpec := afterApiSpec input |}.

Definition other (s : Side) : Side :=
  match s with before => after | after => before end.

End RunnerExtras.

Section RunnerCounts.
Context `{C : Collaborators}.

(** Tells the rule body calls from the others. *)
Definition is_call_rule (e : Event) : bool :=
  match e with call_rule _ _ _ => true | _ => false end.

(** On how many sides the operation exists: 0, 1 or 2. *)
Definition sides_with_operation (input : Inputs) : nat :=
  (if is_some (operation_on input before) then 1 else 0)
  + (if is_some (operation_on input after) then 1 else 0).

(** The content types of [request.bodies] that have a body on side [s]. *)
Definition content_types_on (input : Inputs) (s : Side) : list string :=
  List.filter (fun contentType0 => is_some (instance_on input s contentType0))
    (JsMap.keys (bodies (request input))).

(** The bodies a matcher is asked about in a run: those of the sides on
    which the operation exists. *)
Definition matcher_sites (input : Inputs) : nat :=
  (if is_some (operation_on input before)
   then length (content_types_on input before) else 0)
  + (if is_some (operation_on input after)
     then length (content_types_on input after) else 0).

(** Whether the flattened rule has a matcher. *)
Definition has_matcher (fr : FlatRule) : bool := is_some (matches (base fr)).

End RunnerCounts.

(** ** The rule-runner factory, stated on lists and maps *)

Section FactoryPayload.
Context `{D : Domain}.
Variable Standard : Type.
Variables (StandardRulesets : gmap string Standard)
  (getManyRulesetsByName : list string -> list (option HostedRuleset)).

(** [name in StandardRulesets] *)
Definition is_standard (name0 : string) : bool :=
  in_object name0 StandardRulesets.

(** The names asked of the registry: those for which the [in] test
    fails and that are not local files, in the order of the
    configuration. *)
Definition names_to_fetch (config : OpticCliConfig) : list string :=
  List.filter
    (fun name0 => negb (is_standard name0) && negb (isLocalJsFile name0))
    (map ref_name (ruleset config)).

(** The names taken as local files. *)
Definition local_names (config : OpticCliConfig) : list string :=
  List.filter
    (fun name0 => negb (is_standard name0) && isLocalJsFile name0)
    (map ref_name (ruleset config)).

(** [localRulesets] after the first loop, from the names it kept. *)
Definition local_map (names : list string) (m : gmap string string)
    : gmap string string :=
  fold_left (fun m0 name0 => <[name0 := name0]> m0) names m.

Definition hosted_entry (h : HostedRuleset) : HostedEntry :=
  {| entry_uploaded_at := uploaded_at h; entry_url := url h |}.

(** [hostedRulesets] after the second loop, from the response. *)
Definition hosted_map (response : list (option HostedRuleset))
    (m : gmap string HostedEntry) : gmap string HostedEntry :=
  fold_left
    (fun m0 o =>
       match o with
       | Some h => <[hosted_name h := hosted_entry h]> m0
       | None => m0
       end)
    response m.

(** What [prepareRulesets] is called with. *)
Definition payload_of (config : OpticCliConfig) : InputPayload Standard :=
  {| payload_ruleset := ruleset config;
     payload_localRulesets := local_map (local_names config) ∅;
     payload_standardRulesets := StandardRulesets;
     payload_hostedRulesets :=
       hosted_map (getManyRulesetsByName (names_to_fetch config)) ∅ |}.

End FactoryPayload.

Arguments is_standard {Standard} _ _.
Arguments names_to_fetch {Standard} _ _.
Arguments local_names {Standard} _ _.
Arguments payload_of {Standard} _ _ _.

(** ** commands/verify.ts of the CLI *)

Module Verify.

(** *** trackStats *)

(** The kinds [trackStats] counts, and any other kind of observation. *)
Inductive StatusObservationKind : Type :=
| InteractionUnmatchedPath
| InteractionUnmatchedMethod
| InteractionCaptured
| InteractionMatchedOperation
| OtherObservation.

Record StatusObservation : Type := {
  kind : StatusObservationKind;
  observation_value : Json
}.

Record Stats : Type := {
  unmatchedPathsCount : nat;
  unmatchedMethodsCount : nat;
  capturedInteractionsCount : nat;
  matchedInteractionsCount : nat
}.

(** The one [stats] object of a call, and what its consumer reads from it
    at each [yield]: every [yield] hands out that same object, and the
    generator does not go on before the consumer asks for more. *)
Record Tracking : Type := {
  stats : Stats;
  yielded : list Stats
}.

Definition update_stats (f : Stats -> Stats) : Run.M Tracking unit :=
  Run.modify (fun t => {| stats := f (stats t); yielded := yielded t |}).

(** [yield stats] *)
Definition yield_stats : Run.M Tracking unit :=
  Run.modify
    (fun t => {| stats := stats t; yielded := yielded t ++ [stats t] |}).

Local Open Scope run_scope.

(** The generator handed to [trackCompletion]. *)
Definition trackStats_generator (observations : list StatusObservation)
    : Run.M Tracking unit :=
  Run.forM_ observations (fun observation =>
    match kind observation with
    | InteractionUnmatchedPath =>
        update_stats (fun s =>
          {| unmatchedPathsCount := unmatchedPathsCount s + 1;
             unmatchedMethodsCount := unmatchedMethodsCount s;
             capturedInteractionsCount := capturedInteractionsCount s;
             matchedInteractionsCount := matchedInteractionsCount s |}) ;;
        yield_stats
    | InteractionUnmatchedMethod =>
        update_stats (fun s =>
          {| unmatchedPathsCount := unmatchedPathsCount s;
             unmatchedMethodsCount := unmatchedMethodsCount s + 1;
             capturedInteractionsCount := capturedInteractionsCount s;
             matchedInteractionsCount := matchedInteractionsCount s |}) ;;
        yield_stats
    | InteractionCaptured =>
        update_stats (fun s =>
          {| unmatchedPathsCount := unmatchedPathsCount s;
             unmatchedMethodsCount := unmatchedMethodsCount s;
             capturedInteractionsCount := capturedInteractionsCount s + 1;
             matchedInteractionsCount := matchedInteractionsCount s |}) ;;
        yield_stats
    | InteractionMatchedOperation =>
        update_stats (fun s =>
          {| unmatchedPathsCount := unmatchedPathsCount s;
             unmatchedMethodsCount := unmatchedMethodsCount s;
             capturedInteractionsCount := capturedInteractionsCount s;
             matchedInteractionsCount := matchedInteractionsCount s + 1 |}) ;;
        yield_stats
    | OtherObservation => Run.ret tt
    end).

(** The generator run to its end on a fresh [stats] object. *)
Definition trackStats (observations : list StatusObservation) : Tracking :=
  Run.exec (trackStats_generator observations)
    {| stats :=
         {| unmatchedPathsCount := 0; unmatchedMethodsCount := 0;
            capturedInteractionsCount := 0; matchedInteractionsCount := 0 |};
       yielded := [] |}.

Definition Kind_eqb (k k' : StatusObservationKind) : bool :=
  match k, k' with
  | InteractionUnmatchedPath, InteractionUnmatchedPath
  | InteractionUnmatchedMethod, InteractionUnmatchedMethod
  | InteractionCaptured, InteractionCaptured
  | InteractionMatchedOperation, InteractionMatchedOperation
  | OtherObservation, OtherObservation => true
  | _, _ => false
  end.

(** How many observations are of kind [k]. *)
Definition count_kind (k : StatusObservationKind)
    (observations : list StatusObservation) : nat :=
  length (List.filter (fun o => Kind_eqb (kind o) k) observations).

Definition total (s : Stats) : nat :=
  unmatchedPathsCount s + unmatchedMethodsCount s
  + capturedInteractionsCount s + matchedInteractionsCount s.

(** *** renderOperationStatus and renderUndocumentedPath *)

(** [s.padStart(targetLength, c)] for a one-character pad. *)
Definition padStart (s : string) (targetLength : nat) (c : ascii) : string :=
  (string_of_list_ascii (repeat c (targetLength - String.length s)) ++ s)
  %string.

(** The double quote character, as a string. *)
Definition quote : string := String (ascii_of_nat 34) EmptyString.

(** An element of [pathsToAdd]. *)
Record UndocumentedPath : Type := {
  pathPattern : string;
  methods : list string
}.

(** What is written: a line on the console or an instruction through
    [feedback]. *)
Inductive Output : Type :=
| console_log (line : string)
| commandInstruction (command description : string).

(** The local counter and what was written so far. *)
Record Rendering : Type := {
  undocumentedPaths : nat;
  written : list Output
}.

Section Render.
(** [chalk.bgYellow] *)
Variable bgYellow : string -> string.

Definition write (o : Output) : Run.M Rendering unit :=
  Run.modify
    (fun r =>
       {| undocumentedPaths := undocumentedPaths r;
          written := written r ++ [o] |}).

Definition renderUndocumentedPath (method0 pathPattern0 : string)
    : Run.M Rendering unit :=
  write
    (console_log
       (bgYellow "Undocumented" ++ " "
        ++ padStart (toUpperCase method0) 6 " " ++ "   " ++ pathPattern0)
       %string).

(** From the paths [observationToUndocumented] found. *)
Definition renderOperationStatus_body (pathsToAdd : list UndocumentedPath)
    : Run.M Rendering nat :=
  Run.when (negb (Nat.eqb (length pathsToAdd) 0))
    (Run.forM_ pathsToAdd (fun unmatchedPath =>
       Run.modify
         (fun r =>
            {| undocumentedPaths := undocumentedPaths r + 1;
               written := written r |}) ;;
       Run.forM_ (methods unmatchedPath) (fun method0 =>
         renderUndocumentedPath (toUpperCase method0)
           (pathPattern unmatchedPath))) ;;
     write (commandInstruction "--document all" "to document these paths") ;;
     write
       (commandInstruction
          ("--document " ++ quote ++ "[method path], ..." ++ quote)%string
          "to document or more paths")) ;;
  (fun r => (undocumentedPaths r, r)).

(** The count returned and what has been written after the call. *)
Definition renderOperationStatus (pathsToAdd : list UndocumentedPath)
    (written0 : list Output) : nat * list Output :=
  let (n, r) :=
    renderOperationStatus_body pathsToAdd
      {| undocumentedPaths := 0; written := written0 |} in
  (n, written r).

(** The line of one method of one path. *)
Definition undocumented_line (pathPattern0 method0 : string) : Output :=
  console_log
    (bgYellow "Undocumented" ++ " "
     ++ padStart (toUpperCase method0) 6 " " ++ "   " ++ pathPattern0)
    %string.

End Render.

(** *** getInteractions *)

(** [InputErrors], the codes this file uses. *)
Inductive InputErrors : Type :=
| SPEC_FILE_NOT_FOUND
| SPEC_FILE_NOT_READABLE
| HAR_FILE_NOT_FOUND
| CAPTURE_METHOD_MISSING.

(** The interactions read from the HAR file at a path:
    [CapturedInteractions.fromHarEntries] of the entries of the stream
    opened on it. *)
Inductive CapturedInteractions : Type :=
| fromHarFile (path0 : string).

(** What the function returns: what [feedback.inputError] returned, or
    [AT.merge] of the sources. *)
Inductive Interactions : Type :=
| inputError (message0 : string) (code : InputErrors)
| merged (sources : list CapturedInteractions).

(** The order of [Array.prototype.sort] without a comparison function:
    strings by their code units, the characters of a string here being
    the code units below 256. *)
Definition code_unit_le (a b : string) : Prop := String.leb a b = true.

#[global] Instance code_unit_le_dec : RelDecision code_unit_le :=
  fun a b => decide (String.leb a b = true).

(** [names.sort()]: the order is total and antisymmetric on strings, so
    the sorted array is the same whatever the algorithm. *)
Definition sort (names : list string) : list string :=
  merge_sort code_unit_le names.

Section GetInteractions.
(** The capture directory of a specification, the file system and
    [path]. *)
Variables (captureStorage : string -> string)
  (readdir : string -> list string)
  (pathExists : string -> bool)
  (resolve : string -> string)
  (join : string -> string -> string).

(** The end of the function: an error when there is no source. *)
Definition merge_or_error (sources : list CapturedInteractions)
    : Interactions :=
  if (length sources <? 1)%nat then
    inputError
      ("no traffic captured for this OpenAPI spec. Run " ++ quote
       ++ "oas capture" ++ quote ++ " command")%string
      CAPTURE_METHOD_MISSING
  else merged sources.

Definition getInteractions (har : option string) (specPath : string)
    : Interactions :=
  let captureStorageDirectory := captureStorage specPath in
  let captureDirectoryContents := sort (readdir captureStorageDirectory) in
  match har with
  | Some h =>
      if negb (String.eqb h "") then
        let absoluteHarPath := resolve h in
        if negb (pathExists absoluteHarPath) then
          inputError "HAR file could not be found at given path"
            HAR_FILE_NOT_FOUND
        else merge_or_error [fromHarFile absoluteHarPath]
      else
        merge_or_error
          (Run.exec
             (Run.forM_ captureDirectoryContents (fun potentialCapture =>
                Run.when (endsWith potentialCapture ".har")
                  (Run.modify (fun sources =>
                     sources
                     ++ [fromHarFile
                           (join captureStorageDirectory potentialCapture)]))))
             [])
  | None =>
      merge_or_error
        (Run.exec
           (Run.forM_ captureDirectoryContents (fun potentialCapture =>
              Run.when (endsWith potentialCapture ".har")
                (Run.modify (fun sources =>
                   sources
                   ++ [fromHarFile
                         (join captureStorageDirectory potentialCapture)]))))
           [])
  end.

(** The completed captures of a directory listing. *)
Definition completed_captures (names : list string) : list string :=
  List.filter (fun name0 => endsWith name0 ".har") names.

End GetInteractions.

(** How the promise of a call settles: rejected, or fulfilled with what
    the function returns. *)
Inductive Settled : Type :=
| rejected
| fulfilled (result : Interactions).

Section GetInteractionsSettled.
(** [captureStorage] and [fs.readdir] may fail: [None] stands for a
    rejection. *)
Variables (captureStorage : string -> option string)
  (readdir : string -> option (list string))
  (pathExists : string -> bool)
  (resolve : string -> string)
  (join : string -> string -> string).

(** The call with its two reads.  Both are awaited before the [--har]
    option is looked at, so that a failing read rejects the call
    whatever the option; once they have returned, the rest is
    [getInteractions] on the directory and the contents they gave. *)
Definition getInteractions_settled (har : option string)
    (specPath : string) : Settled :=
  match captureStorage specPath with
  | None => rejected
  | Some captureStorageDirectory =>
      match readdir captureStorageDirectory with
      | None => rejected
      | Some contents =>
          fulfilled
            (getInteractions (fun _ => captureStorageDirectory)
               (fun _ => contents) pathExists resolve join har specPath)
      end
  end.

End GetInteractionsSettled.

End Verify.

(** ** Entries of [rules] that hold a request rule *)

Section Contributes.
Context `{D : Domain}.

Definition is_request_rule (r : Rule) : bool :=
  match r with ARequestRule _ => true | AnotherRule _ => false end.

(** A request rule, or a ruleset with at least one. *)
Definition holds_request_rule (x : Rules) : bool :=
  match x with
  | IsRule r => is_request_rule r
  | IsRuleset rs => existsb is_request_rule (ruleset_rules rs)
  end.

End Contributes.

(** ** More example inputs *)

Module MoreExamples.
Import Fixture Examples.

(** [GET /api/users] added by the change: it has no before side. *)
Definition users_get_added : EndpointNode :=
  {| endpoint_method := "get"; endpoint_path := "/api/users";
     endpoint_before := None; endpoint_after := Some (JObject []);
     endpoint_change :=
       Some {| changeType := ChAdded; change_value := JObject [] |} |}.

(** An endpoint node with neither side. *)
Definition users_get_nowhere : EndpointNode :=
  {| endpoint_method := "get"; endpoint_path := "/api/users";
     endpoint_before := None; endpoint_after := None;
     endpoint_change := None |}.

Definition added_operation_input : @Inputs domain :=
  {| operation := users_get_added;
     request := {| bodies := [("application/json", added_body)] |};
     rules := [IsRuleset breaking_changes];
     customRuleContext := JNull;
     beforeApiSpec := JObject [];
     afterApiSpec := JObject [] |}.

Definition nowhere_input : @Inputs domain :=
  {| operation := users_get_nowhere;
     request := {| bodies := [("application/json", unchanged_body)] |};
     rules := [IsRuleset breaking_changes];
     customRuleContext := JNull;
     beforeApiSpec := JObject [];
     afterApiSpec := JObject [] |}.

(** A configuration naming a catalogue ruleset, a local file and two
    hosted rulesets. *)
Definition catalogue : gmap string unit :=
  <["breaking-changes" := tt]> (<["naming.js" := tt]> ∅).

Definition config : OpticCliConfig :=
  {| ruleset :=
       [{| ref_name := "breaking-changes"; ref_config := JNull |};
        {| ref_name := "./rules/local.js"; ref_config := JNull |};
        {| ref_name := "@team/style"; ref_config := JNull |};
        {| ref_name := "naming.js"; ref_config := JNull |};
        {| ref_name := "@team/unknown"; ref_config := JNull |}] |}.

(** A configuration naming [toString], which every object inherits. *)
Definition inherited_config : OpticCliConfig :=
  {| ruleset :=
       [{| ref_name := "toString"; ref_config := JNull |};
        {| ref_name := "@team/style"; ref_config := JNull |}] |}.

Definition style_v1 : HostedRuleset :=
  {| hosted_name := "@team/style"; uploaded_at := "2022-10-01";
     url := "https://registry.example/style-1" |}.

Definition style_v2 : HostedRuleset :=
  {| hosted_name := "@team/style"; uploaded_at := "2022-11-01";
     url := "https://registry.example/style-2" |}.

(** A registry that answers twice for the first name and not at all for
    the second. *)
Definition registry (names : list string) : list (option HostedRuleset) :=
  [Some style_v1; None; Some style_v2].

(** Another registry with the same answer for the names of [config]. *)
Definition registry' (names : list string) : list (option HostedRuleset) :=
  match names with
  | [] => []
  | _ :: _ => [Some style_v1; None; Some style_v2]
  end.

Definition prepare (payload : InputPayload unit) : @Prepared domain :=
  {| prepared_rulesets := [breaking_changes];
     warnings := ["ruleset @team/unknown could not be resolved"] |}.

(** A capture directory and a file system. *)
Definition directory (dir : string) : list string :=
  ["b.har"; "notes.txt"; "a.har"; "c.har.incomplete"].

Definition exists_on_disk (path0 : string) : bool :=
  String.eqb path0 "/work/traffic.har".

Definition resolve (path0 : string) : string := ("/work/" ++ path0)%string.

Definition join (dir name0 : string) : string :=
  (dir ++ "/" ++ name0)%string.

Definition storage (specPath : string) : string := "/work/.optic/captures".

End MoreExamples.

(** * Proofs *)

(** ** The loops append *)

Section Writes.
Context `{C : Collaborators}.

Lemma extend_nil (s : State) : extend s [] [] = s.
Proof. destruct s; unfold extend; simpl. by rewrite !app_nil_r. Qed.

Lemma extend_extend (s : State) rs es rs' es' :
  extend (extend s rs es) rs' es' = extend s (rs ++ rs') (es ++ es').
Proof. unfold extend; simpl. by rewrite !app_assoc. Qed.

Lemma writes_ret {A : Type} (a : A) : writes (Run.ret a) a [] [].
Proof. intros s. unfold Run.ret. by rewrite extend_nil. Qed.

Lemma writes_bind {A B : Type} (m : Run.M State A) (k : A -> Run.M State B)
    a b rs es rs' es' :
  writes m a rs es -> writes (k a) b rs' es' ->
  writes (Run.bind m k) b (rs ++ rs') (es ++ es').
Proof.
  intros Hm Hk s. unfold Run.bind. rewrite Hm, Hk. by rewrite extend_extend.
Qed.

Lemma writes_push (rs : list Result) : writes (push rs) tt rs [].
Proof.
  intros s. unfold push, Run.modify, extend. by rewrite app_nil_r.
Qed.

Lemma writes_call (e : Event) : writes (call e) tt [] [e].
Proof.
  intros s. unfold call, Run.modify, extend. by rewrite app_nil_r.
Qed.

Lemma writes_eq {A : Type} (m : Run.M State A) a rs es rs' es' :
  writes m a rs es -> rs = rs' -> es = es' -> writes m a rs' es'.
Proof. by intros H <- <-. Qed.

Lemma writes_when (b : bool) (m : Run.M State unit) rs es :
  writes m tt rs es ->
  writes (Run.when b m) tt (if b then rs else []) (if b then es else []).
Proof. destruct b; simpl; [done | intros _; apply writes_ret]. Qed.

Lemma writes_forM_ {A : Type} (f : A -> Run.M State unit)
    (R : A -> list Result) (E : A -> list Event) (xs : list A) :
  (forall x, writes (f x) tt (R x) (E x)) ->
  writes (Run.forM_ xs f) tt (flat_map R xs) (flat_map E xs).
Proof.
  intros Hf. induction xs as [|x xs IH]; simpl.
  - apply writes_ret.
  - eapply writes_bind; [apply Hf | apply IH].
Qed.


Variable input : Inputs.

Lemma writes_run_rule (fr : FlatRule) (a : RequestAssertions)
    (c : RuleContext) :
  writes (run_rule fr a c) (rule (base fr) a c) [] [call_rule fr a c].
Proof.
  unfold run_rule.
  eapply writes_eq;
    [eapply writes_bind; [apply writes_call | apply writes_ret] | done ..].
Qed.

Lemma writes_no_matcher_or_matches (fr : FlatRule) (b : RequestBody)
    (c : RuleContext) :
  writes (no_matcher_or_matches fr b c) (accepted fr b c) []
    (matcher_calls fr b c).
Proof.
  unfold no_matcher_or_matches, accepted, matcher_calls.
  destruct (matches (base fr)) as [m|].
  - eapply writes_eq;
      [eapply writes_bind; [apply writes_call | apply writes_ret] | done ..].
  - apply writes_ret.
Qed.

Lemma map_as_flat_map {A B : Type} (f : A -> B) (l : list A) :
  map f l = flat_map (fun x => [f x]) l.
Proof. induction l as [|x l IH]; simpl; [done | by rewrite IH]. Qed.

Lemma writes_before_content_type (fr : FlatRule) (op : Operation)
    (contentType0 : string) :
  writes
    (before_content_type input fr op (context_on input before op)
       (registered fr (context_on input before op)) contentType0)
    tt
    (content_type_results input before fr op contentType0)
    (content_type_calls input before fr op contentType0).
Proof.
  unfold before_content_type, content_type_results, content_type_calls,
    instance_on; cbn [apiSpec].
  destruct (createRequest (request input) contentType0 before
              (beforeApiSpec input)) as [b|]; [|apply writes_ret].
  eapply writes_eq.
  - eapply writes_bind; [apply writes_no_matcher_or_matches|].
    apply writes_when.
    eapply writes_bind; [apply writes_call|].
    eapply writes_bind; [apply writes_push|].
    apply (writes_forM_ _
             (property_results input before fr op contentType0 b)
             (fun kp => [property_call input before contentType0 kp])).
    intros [key property].
    eapply writes_eq;
      [eapply writes_bind; [apply writes_call | apply writes_push]
      | done ..].
  - destruct (accepted fr b (context_on input before op)); done.
  - destruct (accepted fr b (context_on input before op)); simpl;
      [|done].
    by rewrite <- map_as_flat_map.
Qed.

Lemma writes_after_content_type (fr : FlatRule) (op : Operation)
    (contentType0 : string) :
  writes
    (after_content_type input fr op (context_on input after op)
       (registered fr (context_on input after op)) contentType0)
    tt
    (content_type_results input after fr op contentType0)
    (content_type_calls input after fr op contentType0).
Proof.
  unfold after_content_type, content_type_results, content_type_calls,
    instance_on; cbn [apiSpec].
  destruct (createRequest (request input) contentType0 after
              (afterApiSpec input)) as [b|]; [|apply writes_ret].
  eapply writes_eq.
  - eapply writes_bind; [apply writes_no_matcher_or_matches|].
    apply writes_when.
    eapply writes_bind; [apply writes_call|].
    eapply writes_bind; [apply writes_push|].
    apply (writes_forM_ _
             (property_results input after fr op contentType0 b)
             (fun kp => [property_call input after contentType0 kp])).
    intros [key property].
    eapply writes_eq;
      [eapply writes_bind; [apply writes_call | apply writes_push]
      | done ..].
  - destruct (accepted fr b (context_on input after op)); done.
  - destruct (accepted fr b (context_on input after op)); simpl;
      [|done].
    by rewrite <- map_as_flat_map.
Qed.

Lemma writes_for_request_rule (fr : FlatRule) :
  writes
    (for_request_rule input (operation_on input before)
       (operation_on input after) fr)
    tt (rule_results input fr) (rule_calls input fr).
Proof.
  unfold for_request_rule, rule_results, rule_calls, pass_results,
    pass_calls.
  eapply writes_bind.
  - destruct (operation_on input before) as [op|]; [|apply writes_ret].
    eapply writes_eq.
    + eapply writes_bind; [apply writes_run_rule|].
      apply (writes_forM_ _ (content_type_results input before fr op)
               (content_type_calls input before fr op)).
      intros ct. apply writes_before_content_type.
    + done.
    + done.
  - destruct (operation_on input after) as [op|]; [|apply writes_ret].
    eapply writes_eq.
    + eapply writes_bind; [apply writes_run_rule|].
      apply (writes_forM_ _ (content_type_results input after fr op)
               (content_type_calls input after fr op)).
      intros ct. apply writes_after_content_type.
    + done.
    + done.
Qed.

(** The loops of [runRequestRules] compute the concatenation, over the
    flattened rules in order, of each rule's results and calls. *)
Lemma runRequestRules_from_eq (t : list Event) :
  runRequestRules_from input t =
  {| results := flat_map (rule_results input) (getRequestRules (rules input));
     trace :=
       t ++ flat_map (rule_calls input) (getRequestRules (rules input)) |}.
Proof.
  unfold runRequestRules_from, Run.exec.
  rewrite (writes_forM_ _ (rule_results input) (rule_calls input) _
             writes_for_request_rule).
  done.
Qed.

Lemma runRequestRules_eq :
  runRequestRules input =
  flat_map (rule_results input) (getRequestRules (rules input)).
Proof. unfold runRequestRules. by rewrite runRequestRules_from_eq. Qed.

Lemma runRequestRules_calls_eq :
  runRequestRules_calls input =
  flat_map (rule_calls input) (getRequestRules (rules input)).
Proof. unfold runRequestRules_calls. by rewrite runRequestRules_from_eq. Qed.

End Writes.

(** ** Calls made by a run *)

Section CallProofs.
Context `{C : Collaborators}.
Variable input : Inputs.

Lemma content_type_calls_pass_call (s : Side) (fr : FlatRule)
    (op : Operation) (contentType0 : string) (e : Event) :
  In contentType0 (JsMap.keys (bodies (request input))) ->
  In e (content_type_calls input s fr op contentType0) ->
  pass_call input s op e.
Proof.
  intros Hct. unfold content_type_calls.
  destruct (instance_on input s contentType0) as [b|] eqn:Hb; [|done].
  rewrite in_app_iff. intros [Hm|He].
  - unfold matcher_calls in Hm. destruct (matches (base fr)); [|done].
    destruct Hm as [<-|[]]. simpl. split; [done|]. by exists contentType0.
  - destruct (accepted fr b (context_on input s op)); [|done].
    destruct He as [<-|He].
    + destruct s; simpl; (split; [done|]); exists contentType0; by repeat split.
    + apply in_map_iff in He as [[key p] [<- Hin]].
      destruct s; simpl; (split; [done|]); exists contentType0, b, key;
        by repeat split.
Qed.

(** Every call of a run is a rule body or a call of some pass. *)
Lemma run_calls_cases (e : Event) :
  In e (runRequestRules_calls input) ->
  (exists fr a c, e = call_rule fr a c) \/
  exists s op, operation_on input s = Some op /\ pass_call input s op e.
Proof.
  rewrite runRequestRules_calls_eq. intros He.
  apply in_flat_map in He as [fr [_ He]].
  unfold rule_calls in He. apply in_app_iff in He.
  assert (Hpass : forall s, In e (pass_calls input s fr) ->
            (exists fr a c, e = call_rule fr a c) \/
            exists s op,
              operation_on input s = Some op /\ pass_call input s op e).
  { intros s Hs. unfold pass_calls in Hs.
    destruct (operation_on input s) as [op|] eqn:Hop; [|done].
    destruct Hs as [<-|Hs]; [left; by eauto|].
    right. exists s, op. split; [done|].
    apply in_flat_map in Hs as [ct [Hct Hs]].
    by eapply content_type_calls_pass_call. }
  destruct He as [He|He]; by eapply Hpass.
Qed.

(** C1.  The calls of a run are, rule after rule in flattening order, the
    calls of the before pass followed by those of the after pass.  A pass
    makes no call when the operation does not exist on its side;
    otherwise its first call is the rule body, on the fresh collector and
    with the context of that pass, and no later call of the pass is a rule
    body: each later call is the matcher on a body existing on that side,
    or the executor of that pass on such a body or one of its properties,
    and [runAfter] then receives the body of the same content type (the
    property of the same key) of the before side, or nothing when there
    is none. *)
Theorem rule_body_once_per_pass :
  runRequestRules_calls input =
  flat_map
    (fun fr => pass_calls input before fr ++ pass_calls input after fr)
    (getRequestRules (rules input)) /\
  forall (s : Side) (fr : FlatRule),
    match operation_on input s with
    | None => pass_calls input s fr = []
    | Some op =>
        exists rest,
          pass_calls input s fr =
          call_rule fr createRequestAssertions (context_on input s op)
          :: rest /\
          Forall (pass_call input s op) rest
    end.
Proof.
  split; [apply runRequestRules_calls_eq|].
  intros s fr. unfold pass_calls.
  destruct (operation_on input s) as [op|]; [|done].
  eexists. split; [done|].
  apply List.Forall_forall. intros e He.
  apply in_flat_map in He as [ct [Hct He]].
  by eapply content_type_calls_pass_call.
Qed.

End CallProofs.

(** ** The flattening loop *)

Section FlatteningProofs.
Context `{C : Collaborators}.

Lemma appends_ret : appends (Run.ret tt) [].
Proof. intros s. unfold Run.ret. by rewrite app_nil_r. Qed.

Lemma appends_push_rule (fr : FlatRule) : appends (push_rule fr) [fr].
Proof. by intros s. Qed.

Lemma appends_forM_ {A : Type} (f : A -> Run.M (list FlatRule) unit)
    (F : A -> list FlatRule) (xs : list A) :
  (forall x, appends (f x) (F x)) ->
  appends (Run.forM_ xs f) (flat_map F xs).
Proof.
  intros Hf. induction xs as [|x xs IH]; simpl; [apply appends_ret|].
  intros s. unfold Run.bind. rewrite Hf, IH. by rewrite app_assoc.
Qed.

Lemma contained_as_flat_map (rs : Ruleset) (l : list Rule) :
  map (contained rs) (request_rules l) =
  flat_map
    (fun x =>
       match x with
       | ARequestRule r => [contained rs r]
       | AnotherRule _ => []
       end) l.
Proof.
  unfold request_rules.
  induction l as [|[r|n] l IH]; simpl; [done | by rewrite IH | done].
Qed.

(** The flattening loop computes the concatenation, over the input in
    order, of what each entry contributes. *)
Lemma getRequestRules_eq (l : list Rules) :
  getRequestRules l = flat_map expansion l.
Proof.
  unfold getRequestRules, Run.exec.
  rewrite (appends_forM_ _ expansion); [done|].
  intros [[r|n]|rs]; simpl.
  - apply appends_push_rule.
  - apply appends_ret.
  - rewrite contained_as_flat_map. apply appends_forM_.
    intros [r|n]; [apply appends_push_rule | apply appends_ret].
Qed.

(** C2, as the code has it.  When [createRulesetMatcher] is the logical
    AND the specification describes, the flattening gives, in the order
    of the input, one rule per standalone request rule, unchanged and
    with no alias, and in place of each ruleset its request rules in
    order; a contained rule keeps its name and body, has as matcher the
    conjunction of its own test and the ruleset's (an absent matcher
    accepts), and as docs link its own when it has a non-empty one, else
    the ruleset's, which may be absent. *)
Theorem getRequestRules_flattens (l : list Rules) :
  (forall rm rsm b c,
     createRulesetMatcher rm rsm b c = Spec.createRulesetMatcher rm rsm b c) ->
  getRequestRules l = flat_map expansion l /\
  (forall r,
     expansion (IsRule (ARequestRule r)) = [{| base := r; aliases := [] |}]) /\
  (forall n, expansion (IsRule (AnotherRule n)) = []) /\
  (forall rs,
     expansion (IsRuleset rs) =
     map (contained rs) (request_rules (ruleset_rules rs))) /\
  forall rs r,
    name (base (contained rs r)) = name r /\
    rule (base (contained rs r)) = rule r /\
    (exists m,
       matches (base (contained rs r)) = Some m /\
       forall b c,
         m b c = passes (matches r) b c && passes (ruleset_matches rs) b c) /\
    docsLink (base (contained rs r)) =
    match docsLink r with
    | Some d => if String.eqb d "" then ruleset_docsLink rs else Some d
    | None => ruleset_docsLink rs
    end.
Proof.
  intros Hand. split; [apply getRequestRules_eq|].
  repeat split; try done.
  eexists. split; [done|]. intros b c. by rewrite Hand.
Qed.

End FlatteningProofs.

(** ** The rule-runner factory *)

Section FactoryProofs.
Context `{D : Domain}.
Variable Standard : Type.
Variables (StandardRulesets : gmap string Standard)
  (getManyRulesetsByName : list string -> list (option HostedRuleset))
  (prepareRulesets : InputPayload Standard -> Prepared).

Lemma forM__invariant {St A : Type} (P : St -> Prop)
    (f : A -> Run.M St unit) (xs : list A) :
  (forall x s, P s -> P (Run.exec (f x) s)) ->
  forall s, P s -> P (Run.exec (Run.forM_ xs f) s).
Proof.
  intros Hf. induction xs as [|x xs IH]; intros s Hs; [done|].
  unfold Run.exec in *; simpl. unfold Run.bind.
  specialize (Hf x s Hs). destruct (f x s) as [[] s1]; simpl in *.
  by apply IH.
Qed.

Lemma forM__console_error (ws : list string) (f : Frame) :
  Run.forM_ ws (fun warning => Run.modify (console_error warning)) f =
  (tt, {| rulesets := rulesets f; rulesToFetch := rulesToFetch f;
          localRulesets := localRulesets f;
          hostedRulesets := hostedRulesets f;
          stderr := stderr f ++ ws |}).
Proof.
  revert f. induction ws as [|w ws IH]; intros f; simpl.
  - unfold Run.ret. destruct f; simpl. by rewrite app_nil_r.
  - unfold Run.bind, Run.modify. rewrite IH. simpl.
    by rewrite <- app_assoc.
Qed.

(** C9.  When checks are enabled, whatever warnings the resolution step
    reports, [generateRuleRunner] returns a runner built from exactly the
    rulesets that resolved, and every warning, in order, has been written
    to the console's error stream after what was there: the warnings
    neither stop the run nor are dropped. *)
Theorem generateRuleRunner_warnings (config : OpticCliConfig)
    (stderr0 : list string) :
  exists payload : InputPayload Standard,
    payload_ruleset payload = ruleset config /\
    payload_standardRulesets payload = StandardRulesets /\
    generateRuleRunner StandardRulesets getManyRulesetsByName
      prepareRulesets config true stderr0 =
    ({| runner_rules :=
          map IsRuleset (prepared_rulesets (prepareRulesets payload)) |},
     stderr0 ++ warnings (prepareRulesets payload)).
Proof.
  unfold generateRuleRunner, generateRuleRunner_body.
  cbn [Run.when]. unfold Run.bind at 1 2.
  set (f0 := {| rulesets := []; rulesToFetch := []; localRulesets := ∅;
                hostedRulesets := ∅; stderr := stderr0 |}).
  set (loop1 := Run.forM_ (ruleset config) _).
  assert (H1 : stderr (Run.exec loop1 f0) = stderr0).
  { apply (forM__invariant (fun f => stderr f = stderr0)); [|done].
    intros x s Hs. unfold Run.exec.
    destruct (in_object _ _); [done|].
    destruct (isLocalJsFile _); done. }
  unfold Run.exec in H1. destruct (loop1 f0) as [[] f1]. simpl in H1.
  unfold Run.bind at 1 2.
  set (loop2 := Run.forM_ (getManyRulesetsByName (rulesToFetch f1)) _).
  assert (H2 : stderr (Run.exec loop2 f1) = stderr0).
  { apply (forM__invariant (fun f => stderr f = stderr0)); [|done].
    intros [h|] s Hs; done. }
  unfold Run.exec in H2. destruct (loop2 f1) as [[] f2]. simpl in H2.
  unfold Run.bind, Run.modify. rewrite forM__console_error. simpl.
  eexists. split; [|split]; [| |rewrite H2; reflexivity]; done.
Qed.

End FactoryProofs.

(** ** Results of a run *)

Section ResultProofs.
Context `{C : Collaborators}.
Variable input : Inputs.

Lemma content_type_results_fields (s : Side) (fr : FlatRule)
    (op : Operation) (contentType0 : string) (r : Result) :
  In r (content_type_results input s fr op contentType0) ->
  r_name r = name (base fr) /\ r_docsLink r = docsLink (base fr) /\
  r_isMust r = true /\ r_isShould r = false.
Proof.
  unfold content_type_results.
  destruct (instance_on input s contentType0) as [b|]; [|done].
  destruct (accepted fr b (context_on input s op)); [|done].
  rewrite in_app_iff, in_flat_map.
  intros [Hr|[kp [_ Hr]]]; apply in_map_iff in Hr as [ar [<- _]]; done.
Qed.

Lemma rule_results_fields (fr : FlatRule) (r : Result) :
  In r (rule_results input fr) ->
  r_name r = name (base fr) /\ r_docsLink r = docsLink (base fr) /\
  r_isMust r = true /\ r_isShould r = false.
Proof.
  unfold rule_results, pass_results. rewrite in_app_iff.
  intros [Hr|Hr];
    [destruct (operation_on input before) as [op|]
    |destruct (operation_on input after) as [op|]]; try done;
    apply in_flat_map in Hr as [ct [_ Hr]];
    by eapply content_type_results_fields.
Qed.

Lemma in_request_rules (l : list Rule) (q : RequestRule) :
  In (ARequestRule q) l -> In q (request_rules l).
Proof.
  intros H. unfold request_rules. apply in_flat_map.
  exists (ARequestRule q). split; [done | by left].
Qed.

(** C3, as the code has it.  For a request rule [q] given inside a
    ruleset [rs], the flattened rule is among the rules that are run, its
    alias chain is what [getRuleAliases] gives for the two names, and
    every Result it produces reports the rule's own name [name q]. *)
Theorem result_name_is_rule_name (rs : Ruleset) (q : RequestRule) :
  In (IsRuleset rs) (rules input) ->
  In (ARequestRule q) (ruleset_rules rs) ->
  runRequestRules input =
  flat_map (rule_results input) (getRequestRules (rules input)) /\
  In (contained rs q) (getRequestRules (rules input)) /\
  aliases (contained rs q) = getRuleAliases (ruleset_name rs) (name q) /\
  forall r, In r (rule_results input (contained rs q)) -> r_name r = name q.
Proof.
  intros Hrs Hq. split; [apply runRequestRules_eq|]. split; [|split].
  - rewrite getRequestRules_eq. apply in_flat_map.
    exists (IsRuleset rs). split; [done|]. simpl.
    apply in_map. by apply in_request_rules.
  - done.
  - intros r Hr. by apply rule_results_fields in Hr as [-> _].
Qed.

(** C8.  Every Result of a run has [isMust = true] and
    [isShould = false], the flags of the "must" tier: a rule declares no
    tier of its own, and the two flags are never both true. *)
Theorem results_are_must :
  Forall
    (fun r =>
       r_isMust r = true /\ r_isShould r = false /\
       ~ (r_isMust r = true /\ r_isShould r = true))
    (runRequestRules input).
Proof.
  apply List.Forall_forall. intros r Hr.
  rewrite runRequestRules_eq in Hr.
  apply in_flat_map in Hr as [fr [_ Hr]].
  apply rule_results_fields in Hr as (_ & _ & Hm & Hs).
  rewrite Hm, Hs. repeat split. by intros [_ ?].
Qed.

(** C4.  When the rule has a matcher and it answers false on the body a
    content type has on the side of a pass, in the context of that pass,
    the rule contributes no Result for that content type in that pass,
    whatever its body registered and whatever the executor would return,
    and the only call made for it is that of the matcher.  The Results of
    a run are the concatenation of these contributions. *)
Theorem matcher_gating (s : Side) (fr : FlatRule) (op : Operation)
    (contentType0 : string) (b : RequestBody) (m : Matcher) :
  operation_on input s = Some op ->
  instance_on input s contentType0 = Some b ->
  matches (base fr) = Some m ->
  m b (context_on input s op) = false ->
  content_type_results input s fr op contentType0 = [] /\
  content_type_calls input s fr op contentType0 =
  [call_matches fr b (context_on input s op)] /\
  pass_results input s fr =
  flat_map (content_type_results input s fr op)
    (JsMap.keys (bodies (request input))) /\
  runRequestRules input =
  flat_map
    (fun fr0 => pass_results input before fr0 ++ pass_results input after fr0)
    (getRequestRules (rules input)).
Proof.
  intros Hop Hb Hm Hfalse. split; [|split; [|split]].
  - unfold content_type_results, accepted. by rewrite Hb, Hm, Hfalse.
  - unfold content_type_calls, accepted, matcher_calls.
    by rewrite Hb, Hm, Hfalse.
  - unfold pass_results. by rewrite Hop.
  - apply runRequestRules_eq.
Qed.

(** C5.  The Results of a run are ordered: rule after rule in the order
    of the flattened input (rulesets expanded in place); for each rule
    the Results of the before pass, then those of the after pass; within
    a pass content type after content type in the order of
    [request.bodies]; for a content type the Results for the body, then
    those of its properties in the order of the body's property map. *)
Theorem results_order :
  runRequestRules input =
  flat_map
    (fun fr => pass_results input before fr ++ pass_results input after fr)
    (flat_map expansion (rules input)) /\
  (forall s fr,
     pass_results input s fr =
     match operation_on input s with
     | Some op =>
         flat_map (content_type_results input s fr op)
           (map fst (bodies (request input)))
     | None => []
     end) /\
  (forall s fr op contentType0,
     content_type_results input s fr op contentType0 =
     match instance_on input s contentType0 with
     | Some b =>
         if accepted fr b (context_on input s op) then
           body_results input s fr op contentType0 b
           ++ flat_map (property_results input s fr op contentType0 b)
                (properties b)
         else []
     | None => []
     end).
Proof.
  split; [|done]. rewrite runRequestRules_eq. by rewrite getRequestRules_eq.
Qed.

Lemma filter_map_property_call (s : Side) (contentType0 : string)
    (l : list (string * Field)) :
  List.filter is_call_matches (map (property_call input s contentType0) l)
  = [].
Proof. induction l as [|kp l IH]; [done|]. by destruct s. Qed.

(** C10.  Every matcher call of a run is on the body a content type of
    [request.bodies] has on the side of a pass, in the context of that
    pass.  For such a body [b], the matcher calls made for its content
    type in the pass are the one call on [b] when the rule has a matcher,
    and none otherwise: nothing is asked of the matcher for a property.
    When the test on the body fails, the rule contributes no Result for
    the content type, neither for the body nor for its properties; when
    it succeeds, it contributes the Results of the body's assertions
    followed by those of the assertions of every property of the body.
    The Results and the calls of a run are the concatenation of these
    contributions, over the rules, the two passes and the content types,
    the calls of a pass starting with that of the rule body. *)
Theorem matcher_on_bodies_only (s : Side) (fr : FlatRule) (op : Operation)
    (contentType0 : string) (b : RequestBody) :
  instance_on input s contentType0 = Some b ->
  (forall fr' b' c',
     In (call_matches fr' b' c') (runRequestRules_calls input) ->
     exists s' op' contentType',
       operation_on input s' = Some op' /\
       c' = context_on input s' op' /\
       In contentType' (JsMap.keys (bodies (request input))) /\
       instance_on input s' contentType' = Some b') /\
  List.filter is_call_matches
    (content_type_calls input s fr op contentType0) =
  match matches (base fr) with
  | Some _ => [call_matches fr b (context_on input s op)]
  | None => []
  end /\
  (accepted fr b (context_on input s op) = false ->
   content_type_results input s fr op contentType0 = []) /\
  (accepted fr b (context_on input s op) = true ->
   content_type_results input s fr op contentType0 =
   map (fun ar => createRequestBodyResult ar b op (base fr))
     (body_outcomes input s (registered fr (context_on input s op))
        contentType0 b)
   ++ flat_map
        (fun kp =>
           map
             (fun ar =>
                createRequestPropertyResult ar (snd kp) b op (base fr))
             (property_outcomes input s
                (registered fr (context_on input s op)) contentType0
                (fst kp) (snd kp)))
        (JsMap.entries (properties b))) /\
  runRequestRules input =
  flat_map
    (fun fr0 => pass_results input before fr0 ++ pass_results input after fr0)
    (getRequestRules (rules input)) /\
  runRequestRules_calls input =
  flat_map
    (fun fr0 => pass_calls input before fr0 ++ pass_calls input after fr0)
    (getRequestRules (rules input)) /\
  (forall s0 fr0,
     pass_results input s0 fr0 =
     match operation_on input s0 with
     | Some op0 =>
         flat_map (content_type_results input s0 fr0 op0)
           (JsMap.keys (bodies (request input)))
     | None => []
     end) /\
  (forall s0 fr0,
     pass_calls input s0 fr0 =
     match operation_on input s0 with
     | Some op0 =>
         call_rule fr0 createRequestAssertions (context_on input s0 op0)
         :: flat_map (content_type_calls input s0 fr0 op0)
              (JsMap.keys (bodies (request input)))
     | None => []
     end) /\
  (forall s0 fr0 op0 contentType1,
     List.filter is_call_matches
       (content_type_calls input s0 fr0 op0 contentType1) =
     match instance_on input s0 contentType1, matches (base fr0) with
     | Some b0, Some _ => [call_matches fr0 b0 (context_on input s0 op0)]
     | _, _ => []
     end).
Proof.
  intros Hb. split.
  { intros fr' b' c' Hin.
    apply run_calls_cases in Hin as [(? & ? & ? & ?)|(s' & op' & Hop & Hp)];
      [done|].
    destruct Hp as (-> & ct & Hct & Hinst). by exists s', op', ct. }
  assert (Hfilter : forall s0 fr0 op0 contentType1,
    List.filter is_call_matches
      (content_type_calls input s0 fr0 op0 contentType1) =
    match instance_on input s0 contentType1, matches (base fr0) with
    | Some b0, Some _ => [call_matches fr0 b0 (context_on input s0 op0)]
    | _, _ => []
    end).
  { intros s0 fr0 op0 ct. unfold content_type_calls.
    destruct (instance_on input s0 ct) as [b0|]; [|done].
    rewrite List.filter_app. unfold matcher_calls.
    assert (List.filter is_call_matches
              (if accepted fr0 b0 (context_on input s0 op0)
               then body_call input s0 ct b0
                    :: map (property_call input s0 ct)
                         (JsMap.entries (properties b0))
               else []) = []) as ->.
    { destruct (accepted fr0 b0 (context_on input s0 op0)); [|done].
      cbn [List.filter]. rewrite filter_map_property_call.
      by destruct s0. }
    rewrite app_nil_r. by destruct (matches (base fr0)). }
  split; [by rewrite Hfilter, Hb|].
  unfold content_type_results. rewrite Hb.
  split; [by intros ->|]. split; [by intros ->|].
  split; [apply runRequestRules_eq|].
  split; [apply runRequestRules_calls_eq|]. done.
Qed.

End ResultProofs.

(** ** The executor of the specification *)

Section ExecutorProofs.
Context {T : Type}.
Variable snapshot : T -> option Change -> Json.

Lemma invoke_returns (k : Lifecycle) (d : string) (fact : Json)
    (call0 : Spec.Exc unit) :
  exists ar, Spec.invoke k d fact call0 = inr ar /\ outcome_of (k, d, call0) ar.
Proof.
  destruct call0 as [e|[]]; eexists; (split; [reflexivity|]);
    by repeat split.
Qed.

Lemma invoke_all_returns (fact : Json)
    (calls : list (Lifecycle * string * Spec.Exc unit)) :
  exists outs,
    Spec.invoke_all fact calls = inr outs /\ Forall2 outcome_of calls outs.
Proof.
  induction calls as [|[[k d] call0] calls IH].
  - exists []. split; [done | constructor].
  - destruct IH as (outs & Hrun & Hall).
    destruct (invoke_returns k d fact call0) as (ar & Hone & Har).
    exists (ar :: outs). split; [|by constructor].
    unfold Spec.invoke_all in *. cbn [Spec.mapE fst snd].
    rewrite Hone. cbn [Spec.bindE]. by rewrite Hrun.
Qed.

Lemma outcome_kinds (calls : list (Lifecycle * string * Spec.Exc unit))
    (outs : list AssertionResult) :
  Forall2 outcome_of calls outs ->
  map type outs = map (fun c => fst (fst c)) calls.
Proof.
  induction 1 as [|c ar calls outs [Hk _] _ IH]; [done|].
  simpl. by rewrite Hk, IH.
Qed.

Lemma filter_kind_length (k : Lifecycle) (outs : list AssertionResult) :
  length (List.filter (fun ar => Lifecycle_eqb (type ar) k) outs) =
  length (List.filter (fun k' => Lifecycle_eqb k' k) (map type outs)).
Proof.
  induction outs as [|ar outs IH]; [done|]. simpl.
  destruct (Lifecycle_eqb (type ar) k); simpl; by rewrite IH.
Qed.

Lemma filter_kind_block {A : Type} (k k' : Lifecycle) (on : bool)
    (l : list A) (f : A -> Lifecycle * string * Spec.Exc unit) :
  (forall x, fst (fst (f x)) = k') ->
  length
    (List.filter (fun k0 => Lifecycle_eqb k0 k)
       (map (fun c => fst (fst c)) (if on then map f l else []))) =
  if on && Lifecycle_eqb k' k then length l else 0.
Proof.
  intros Hf. destruct on; [|done]. cbn [andb].
  induction l as [|x l IH]; simpl.
  - by destruct (Lifecycle_eqb k' k).
  - rewrite Hf. destruct (Lifecycle_eqb k' k); simpl; by rewrite IH.
Qed.

Lemma kinds_of_invocations (runs : Spec.Schedule) (s : Side)
    (k : Lifecycle) (a : Spec.Assertions T) (mb : option T) (inst : T)
    (ch : option Change) :
  length
    (List.filter (fun k0 => Lifecycle_eqb k0 k)
       (map (fun c => fst (fst c)) (Spec.invocations runs s a mb inst ch))) =
  if applicable runs s k (is_some mb) ch then registered_count k a else 0.
Proof.
  unfold Spec.invocations, applicable.
  rewrite !map_app, !List.filter_app, !length_app.
  rewrite (filter_kind_block k Requirement); [|done].
  rewrite (filter_kind_block k Added); [|done].
  rewrite (filter_kind_block k Removed); [|done].
  assert (Hc :
    length
      (List.filter (fun k0 => Lifecycle_eqb k0 k)
         (map (fun c => fst (fst c))
            (if runs s Changed ch then
               match mb with
               | Some b =>
                   map (fun dp => (Changed, fst dp, snd dp b inst))
                     (Spec.changed a)
               | None => []
               end
             else []))) =
    if runs s Changed ch && is_some mb && Lifecycle_eqb Changed k
    then length (Spec.changed a) else 0).
  { destruct mb as [b|]; simpl.
    - rewrite (filter_kind_block k Changed); [|done].
      by rewrite andb_true_r.
    - rewrite andb_false_r. by destruct (runs s Changed ch). }
  rewrite Hc.
  destruct k; simpl;
    destruct (runs s Requirement ch), (runs s Added ch),
      (runs s Changed ch), (runs s Removed ch), (is_some mb); simpl; lia.
Qed.

Lemma applicable_count_sum (runs : Spec.Schedule) (s : Side) (hb : bool)
    (ch : option Change) (a : Spec.Assertions T)
    (calls : list (Lifecycle * string * Spec.Exc unit)) :
  (forall k,
     length
       (List.filter (fun k0 => Lifecycle_eqb k0 k)
          (map (fun c => fst (fst c)) calls)) =
     if applicable runs s k hb ch then registered_count k a else 0) ->
  length calls = applicable_count runs s hb ch a.
Proof.
  intros H. unfold applicable_count. cbn [fold_right].
  rewrite <- !H. clear H.
  induction calls as [|[[k d] c] calls IH]; [done|].
  destruct k; simpl; lia.
Qed.

(** What a pass returns, counted per lifecycle kind. *)
Lemma run_counts (runs : Spec.Schedule) (s : Side) (a : Spec.Assertions T)
    (mb : option T) (inst : T) (ch : option Change)
    (outs : list AssertionResult) :
  Spec.run snapshot runs s a mb inst ch = inr outs ->
  (forall k,
     length (List.filter (fun ar => Lifecycle_eqb (type ar) k) outs) =
     if applicable runs s k (is_some mb) ch then registered_count k a
     else 0) /\
  length outs = applicable_count runs s (is_some mb) ch a.
Proof.
  intros Hrun. unfold Spec.run in Hrun.
  destruct (invoke_all_returns (snapshot inst ch)
              (Spec.invocations runs s a mb inst ch))
    as (outs' & Hrun' & Hall).
  rewrite Hrun' in Hrun. injection Hrun as <-.
  split.
  - intros k.
    rewrite filter_kind_length,
      (outcome_kinds (Spec.invocations runs s a mb inst ch)); [|done].
    apply kinds_of_invocations.
  - rewrite <- (Forall2_length _ _ _ Hall).
    apply applicable_count_sum. intros k. apply kinds_of_invocations.
Qed.

End ExecutorProofs.

Section RunProofs.
Context (Ctx : Type) {C : @Collaborators (spec_domain Ctx)}.
Variables (body_snapshot : RequestBody -> option Change -> Json)
  (property_snapshot : Field -> option Change -> Json).

Lemma Forall2_flat_map_pointwise {X A B : Type} (R : A -> B -> Prop)
    (f : X -> list A) (g : X -> list B) (l : list X) :
  (forall x, Forall2 R (f x) (g x)) ->
  Forall2 R (flat_map f l) (flat_map g l).
Proof.
  intros H. induction l as [|x l IH]; simpl; [constructor|].
  by apply Forall2_app.
Qed.

Lemma length_flat_map_sum {X A : Type} (f : X -> list A) (n : X -> nat)
    (l : list X) :
  (forall x, length (f x) = n x) ->
  length (flat_map f l) = list_sum (map n l).
Proof.
  intros H. induction l as [|x l IH]; simpl; [done|].
  by rewrite length_app, H, IH.
Qed.

(** Building Results keeps the condition, the verdict and the error of
    the outcomes. *)
Lemma results_of_outcomes (mk : AssertionResult -> Result)
    (calls : list (Lifecycle * string * Spec.Exc unit))
    (outs : list AssertionResult) :
  (forall ar,
     r_condition (mk ar) = condition ar /\ r_passed (mk ar) = passed ar /\
     r_error (mk ar) = error ar) ->
  Forall2 outcome_of calls outs -> Forall2 result_of calls (map mk outs).
Proof.
  intros Hmk. induction 1 as [|c ar calls outs (_ & Hd & Hv) _ IH]; simpl;
    constructor; [|done].
  destruct (Hmk ar) as (Hc & Hp & He). unfold result_of.
  rewrite Hc, Hp, He. done.
Qed.

Section Executes.
Variables (runs : Spec.Schedule) (input : @Inputs (spec_domain Ctx)).
Hypothesis Hexec : executes Ctx C body_snapshot property_snapshot runs.

Lemma body_run (s : Side) (a : Spec.Collector) (contentType0 : string)
    (b : RequestBody) :
  Spec.run body_snapshot runs s (Spec.body a)
    (before_body Ctx input s contentType0) b (bodyChange input contentType0) =
  inr (body_outcomes input s a contentType0 b).
Proof.
  destruct Hexec as [_ Hbb Hba _ _]. destruct s; [apply Hbb | apply Hba].
Qed.

Lemma property_run (s : Side) (a : Spec.Collector) (contentType0 : string)
    (kp : string * Field) :
  Spec.run property_snapshot runs s (Spec.property a)
    (before_property Ctx input s contentType0 (fst kp)) (snd kp)
    (propertyChange input contentType0 (fst kp)) =
  inr (property_outcomes input s a contentType0 (fst kp) (snd kp)).
Proof.
  destruct Hexec as [_ _ _ Hpb Hpa]. destruct s; [apply Hpb | apply Hpa].
Qed.

Lemma run_outcomes {T : Type} (snapshot : T -> option Change -> Json)
    (s : Side) (a : Spec.Assertions T) (mb : option T) (inst : T)
    (ch : option Change) (outs : list AssertionResult) :
  Spec.run snapshot runs s a mb inst ch = inr outs ->
  Forall2 outcome_of (Spec.invocations runs s a mb inst ch) outs.
Proof.
  unfold Spec.run. intros Hrun.
  destruct (invoke_all_returns (snapshot inst ch)
              (Spec.invocations runs s a mb inst ch))
    as (outs' & Hrun' & Hall).
  rewrite Hrun' in Hrun. by injection Hrun as <-.
Qed.

Lemma body_results_of_invocations (s : Side) (fr : FlatRule)
    (op : Operation) (contentType0 : string) (b : RequestBody) :
  Forall2 result_of (body_invocations Ctx runs input s fr op contentType0 b)
    (body_results input s fr op contentType0 b).
Proof.
  unfold body_results, body_invocations.
  apply results_of_outcomes; [done|].
  eapply run_outcomes, body_run.
Qed.

Lemma property_results_of_invocations (s : Side) (fr : FlatRule)
    (op : Operation) (contentType0 : string) (b : RequestBody)
    (kp : string * Field) :
  Forall2 result_of
    (property_invocations Ctx runs input s fr op contentType0 kp)
    (property_results input s fr op contentType0 b kp).
Proof.
  unfold property_results, property_invocations.
  apply results_of_outcomes; [done|].
  eapply run_outcomes, property_run.
Qed.

Lemma content_type_results_of_invocations (s : Side) (fr : FlatRule)
    (op : Operation) (contentType0 : string) :
  Forall2 result_of
    (content_type_invocations Ctx runs input s fr op contentType0)
    (content_type_results input s fr op contentType0).
Proof.
  unfold content_type_results, content_type_invocations.
  destruct (instance_on input s contentType0) as [b|]; [|constructor].
  destruct (accepted fr b (context_on input s op)); [|constructor].
  apply Forall2_app; [apply body_results_of_invocations|].
  apply Forall2_flat_map_pointwise. intros kp.
  apply property_results_of_invocations.
Qed.

Lemma pass_results_of_invocations (s : Side) (fr : FlatRule) :
  Forall2 result_of (pass_invocations Ctx runs input s fr)
    (pass_results input s fr).
Proof.
  unfold pass_results, pass_invocations.
  destruct (operation_on input s) as [op|]; [|constructor].
  apply Forall2_flat_map_pointwise. intros ct.
  apply content_type_results_of_invocations.
Qed.

(** The Results of a run, one per invocation, in order. *)
Lemma run_results_of_invocations :
  Forall2 result_of (run_invocations Ctx runs input) (runRequestRules input).
Proof.
  rewrite runRequestRules_eq. unfold run_invocations.
  apply Forall2_flat_map_pointwise. intros fr. unfold rule_results.
  apply Forall2_app; apply pass_results_of_invocations.
Qed.

Lemma body_results_length (s : Side) (fr : FlatRule) (op : Operation)
    (contentType0 : string) (b : RequestBody) :
  length (body_results input s fr op contentType0 b) =
  body_count Ctx runs input s fr op contentType0.
Proof.
  unfold body_results, body_count. rewrite length_map.
  eapply run_counts, body_run.
Qed.

Lemma property_results_length (s : Side) (fr : FlatRule) (op : Operation)
    (contentType0 : string) (b : RequestBody) (kp : string * Field) :
  length (property_results input s fr op contentType0 b kp) =
  property_count Ctx runs input s fr op contentType0 kp.
Proof.
  unfold property_results, property_count. rewrite length_map.
  eapply run_counts, property_run.
Qed.

Lemma content_type_results_length (s : Side) (fr : FlatRule)
    (op : Operation) (contentType0 : string) :
  length (content_type_results input s fr op contentType0) =
  content_type_count Ctx runs input s fr op contentType0.
Proof.
  unfold content_type_results, content_type_count.
  destruct (instance_on input s contentType0) as [b|]; [|done].
  destruct (accepted fr b (context_on input s op)); [|done].
  rewrite length_app, body_results_length. f_equal.
  apply length_flat_map_sum. intros kp. apply property_results_length.
Qed.

Lemma pass_results_length (s : Side) (fr : FlatRule) :
  length (pass_results input s fr) = pass_count Ctx runs input s fr.
Proof.
  unfold pass_results, pass_count.
  destruct (operation_on input s) as [op|]; [|done].
  apply length_flat_map_sum. intros ct. apply content_type_results_length.
Qed.

(** The Results of a run, counted. *)
Lemma run_results_length :
  length (runRequestRules input) = run_count Ctx runs input.
Proof.
  rewrite runRequestRules_eq. unfold run_count.
  apply length_flat_map_sum. intros fr. unfold rule_results.
  by rewrite length_app, !pass_results_length.
Qed.

End Executes.

(** C7.  With the collector of the specification and an executor that
    runs the kinds of a schedule, whatever these are and whether or not
    predicates raise, a run returns its Results, one per predicate
    invocation of the run and in the order of the invocations: rule after
    rule, the before pass then the after pass, content type after content
    type, the body then its properties.  The Result of a predicate that
    returns has [passed = true] and no error; the Result of a predicate
    that raises, a structured failure or any other exception, has
    [passed = false] and the raised message as error; both carry the
    assertion's description as condition.  The same holds for the Results
    of one body and of one property, and the executor itself always
    returns its list of outcomes, one per invocation. *)
Theorem predicate_failures_become_results (runs : Spec.Schedule)
    (input : Inputs) :
  executes Ctx C body_snapshot property_snapshot runs ->
  Forall2 result_of (run_invocations Ctx runs input)
    (runRequestRules input) /\
  (forall s fr op contentType0 b,
     Forall2 result_of
       (body_invocations Ctx runs input s fr op contentType0 b)
       (body_results input s fr op contentType0 b)) /\
  (forall s fr op contentType0 b kp,
     Forall2 result_of
       (property_invocations Ctx runs input s fr op contentType0 kp)
       (property_results input s fr op contentType0 b kp)) /\
  (forall (a : Spec.Assertions RequestBody) s mb inst ch,
     exists outs,
       Spec.run body_snapshot runs s a mb inst ch = inr outs /\
       Forall2 outcome_of (Spec.invocations runs s a mb inst ch) outs) /\
  (forall (a : Spec.Assertions Field) s mp inst ch,
     exists outs,
       Spec.run property_snapshot runs s a mp inst ch = inr outs /\
       Forall2 outcome_of (Spec.invocations runs s a mp inst ch) outs).
Proof.
  intros Hexec. split; [by apply run_results_of_invocations|].
  split; [intros; by apply body_results_of_invocations|].
  split; [intros; by apply property_results_of_invocations|].
  split; intros; apply invoke_all_returns.
Qed.

(** C6.  With the collector of the specification and an executor that
    runs the kinds of a schedule, that of section 4.3 or another: for a
    body in a pass, and for each of its properties, the outcomes of each
    lifecycle kind invoked there are as many as the rule body registered
    of that kind on the fresh collector, there is none of another kind,
    and the Results are as many as the registrations of the kinds
    invoked: one Result per assertion, a failing one included.  A run
    gives these Results and no other: its Results are the concatenation,
    over the rules, the two passes, the content types whose body passes
    the matcher test and the body followed by its properties, of the
    Results of each, so that the run has as many Results as the
    registrations of the kinds invoked, summed over all of these. *)
Theorem one_result_per_assertion (runs : Spec.Schedule) (input : Inputs)
    (s : Side) (fr : FlatRule) (op : Operation) (contentType0 : string)
    (b : RequestBody) :
  executes Ctx C body_snapshot property_snapshot runs ->
  let a := registered fr (context_on input s op) in
  let mb :=
    match s with
    | before => None
    | after => instance_on input before contentType0
    end in
  a = rule (base fr) Spec.createRequestAssertions (context_on input s op) /\
  (forall k,
     length
       (List.filter (fun ar => Lifecycle_eqb (type ar) k)
          (body_outcomes input s a contentType0 b)) =
     if applicable runs s k (is_some mb) (bodyChange input contentType0)
     then registered_count k (Spec.body a) else 0) /\
  length (body_results input s fr op contentType0 b) =
  applicable_count runs s (is_some mb) (bodyChange input contentType0)
    (Spec.body a) /\
  (forall key p,
     let mp :=
       match s with
       | before => None
       | after => maybeBeforeProperty mb key
       end in
     (forall k,
        length
          (List.filter (fun ar => Lifecycle_eqb (type ar) k)
             (property_outcomes input s a contentType0 key p)) =
        if applicable runs s k (is_some mp)
             (propertyChange input contentType0 key)
        then registered_count k (Spec.property a) else 0) /\
     length (property_results input s fr op contentType0 b (key, p)) =
     applicable_count runs s (is_some mp)
       (propertyChange input contentType0 key) (Spec.property a)) /\
  runRequestRules input =
  flat_map
    (fun fr0 => pass_results input before fr0 ++ pass_results input after fr0)
    (getRequestRules (rules input)) /\
  (forall s0 fr0,
     pass_results input s0 fr0 =
     match operation_on input s0 with
     | Some op0 =>
         flat_map (content_type_results input s0 fr0 op0)
           (JsMap.keys (bodies (request input)))
     | None => []
     end) /\
  (forall s0 fr0 op0 contentType1,
     content_type_results input s0 fr0 op0 contentType1 =
     match instance_on input s0 contentType1 with
     | Some b0 =>
         if accepted fr0 b0 (context_on input s0 op0) then
           body_results input s0 fr0 op0 contentType1 b0
           ++ flat_map (property_results input s0 fr0 op0 contentType1 b0)
                (JsMap.entries (properties b0))
         else []
     | None => []
     end) /\
  length (runRequestRules input) = run_count Ctx runs input.
Proof.
  intros Hexec a mb.
  split; [unfold a, registered; by rewrite (fresh_collector _ _ _ _ _ Hexec)|].
  pose proof (body_run runs input Hexec s a contentType0 b) as Hbody.
  apply run_counts in Hbody as [Hk Hn].
  split; [exact Hk|]. split.
  { unfold body_results. rewrite length_map. exact Hn. }
  split.
  { intros key p mp.
    pose proof (property_run runs input Hexec s a contentType0 (key, p))
      as Hprop.
    apply run_counts in Hprop as [Hk' Hn'].
    assert (Hmp : before_property Ctx input s contentType0 key = mp)
      by (by destruct s).
    cbn [fst snd] in Hk', Hn'. rewrite Hmp in Hk', Hn'.
    split; [exact Hk'|].
    unfold property_results. rewrite length_map. exact Hn'. }
  split; [apply runRequestRules_eq|]. split; [done|]. split; [done|].
  by apply run_results_length.
Qed.

End RunProofs.

(** ** The example inputs *)

Section ExampleProofs.
Import Examples.
#[local] Existing Instance Fixture.domain.
#[local] Existing Instance Fixture.collaborators.

(** The fixture's executor is the specification's. *)
Lemma fixture_executes :
  executes Fixture.Context Fixture.collaborators Fixture.body_snapshot
    Fixture.property_snapshot Spec.schedule.
Proof.
  assert (Hret : forall fact calls,
            Spec.invoke_all fact calls =
            inr (Fixture.returned (Spec.invoke_all fact calls))).
  { intros fact calls.
    destruct (invoke_all_returns fact calls) as (outs & -> & _). done. }
  split; [done|..]; intros; apply Hret.
Qed.

(** The two tests of a body requirement: every Result passes when the
    schema has a type, every Result fails with the rule's message when it
    has none. *)
Example requirement_passing :
  runRequestRules typed_input <> [] /\
  forallb r_passed (runRequestRules typed_input) = true.
Proof. split; [discriminate | reflexivity]. Qed.

Example requirement_failing :
  runRequestRules untyped_input <> [] /\
  Forall
    (fun r =>
       r_passed r = false /\
       r_error r = Some "request body does not have `type`")
    (runRequestRules untyped_input).
Proof. split; [discriminate | by repeat constructor]. Qed.

(** C2, the claim as stated fails: the rule's own docs link is present,
    the empty string, and the flattened rule has the ruleset's. *)
Lemma docsLink_empty_string_falls_back :
  docsLink no_required_removal = Some "" /\
  map (fun fr => docsLink (base fr))
    (getRequestRules [IsRuleset breaking_changes]) =
  [Some "https://example.com/breaking-changes"] /\
  map (fun fr => docsLink (base fr))
    (getRequestRules [IsRuleset breaking_changes]) <>
  [docsLink no_required_removal].
Proof. repeat split. discriminate. Qed.

(** The flattening of the example ruleset, under the AND of the
    specification. *)
Lemma getRequestRules_flattens_witness :
  (forall rm rsm b c,
     createRulesetMatcher rm rsm b c = Spec.createRulesetMatcher rm rsm b c) /\
  getRequestRules [IsRuleset breaking_changes] =
  [contained breaking_changes no_required_removal].
Proof.
  assert (H : forall rm rsm b c,
            createRulesetMatcher rm rsm b c =
            Spec.createRulesetMatcher rm rsm b c) by reflexivity.
  split; [exact H|].
  exact (proj1 (getRequestRules_flattens [IsRuleset breaking_changes] H)).
Defined.

(** C3, the claim as stated fails: the one Result of the nested rule is
    named after the rule, while the alias is the qualified name. *)
Lemma result_name_not_alias :
  map r_name (runRequestRules added_body_input) = ["no-required-removal"] /\
  map aliases (getRequestRules (rules added_body_input)) =
  [["Breaking Changes > no-required-removal"]] /\
  map r_name (runRequestRules added_body_input) <>
  ["Breaking Changes > no-required-removal"].
Proof. repeat split. discriminate. Qed.

(** The Results of the nested example rule carry its own name. *)
Lemma result_name_is_rule_name_witness :
  In (IsRuleset breaking_changes) (rules added_body_input) /\
  In (ARequestRule no_required_removal) (ruleset_rules breaking_changes) /\
  forall r,
    In r (rule_results added_body_input
            (contained breaking_changes no_required_removal)) ->
    r_name r = "no-required-removal".
Proof.
  assert (H1 : In (IsRuleset breaking_changes) (rules added_body_input))
    by (simpl; left; reflexivity).
  assert (H2 : In (ARequestRule no_required_removal)
                 (ruleset_rules breaking_changes))
    by (simpl; left; reflexivity).
  split; [exact H1|]. split; [exact H2|].
  exact (proj2 (proj2 (proj2
           (result_name_is_rule_name added_body_input breaking_changes
              no_required_removal H1 H2)))).
Defined.

(** The XML-only rule gives nothing for the JSON body in the before
    pass. *)
Lemma matcher_gating_witness :
  operation_on unchanged_body_input before = Some users_get_operation /\
  instance_on unchanged_body_input before "application/json" =
  Some json_body /\
  matches (base (standalone xml_only)) = Some xml_matcher /\
  xml_matcher json_body
    (context_on unchanged_body_input before users_get_operation) = false /\
  content_type_results unchanged_body_input before (standalone xml_only)
    users_get_operation "application/json" = [].
Proof.
  assert (H1 : operation_on unchanged_body_input before =
               Some users_get_operation) by reflexivity.
  assert (H2 : instance_on unchanged_body_input before "application/json" =
               Some json_body) by reflexivity.
  assert (H3 : matches (base (standalone xml_only)) = Some xml_matcher)
    by reflexivity.
  assert (H4 : xml_matcher json_body
                 (context_on unchanged_body_input before users_get_operation)
               = false) by reflexivity.
  repeat (split; [assumption|]).
  exact (proj1 (matcher_gating unchanged_body_input before
                  (standalone xml_only) users_get_operation
                  "application/json" json_body xml_matcher H1 H2 H3 H4)).
Defined.

(** In the after pass the XML-only rule asks its matcher once, about the
    JSON body, and gives nothing; the matcher calls of the whole run are
    that one and the one of the before pass. *)
Lemma matcher_on_bodies_only_witness :
  instance_on unchanged_body_input after "application/json" =
  Some json_body /\
  List.filter is_call_matches
    (content_type_calls unchanged_body_input after (standalone xml_only)
       users_get_operation "application/json") =
  [call_matches (standalone xml_only) json_body
     (context_on unchanged_body_input after users_get_operation)] /\
  content_type_results unchanged_body_input after (standalone xml_only)
    users_get_operation "application/json" = [] /\
  runRequestRules unchanged_body_input = [] /\
  List.filter is_call_matches (runRequestRules_calls unchanged_body_input) =
  [call_matches (standalone xml_only) json_body
     (context_on unchanged_body_input before users_get_operation);
   call_matches (standalone xml_only) json_body
     (context_on unchanged_body_input after users_get_operation)].
Proof.
  assert (H : instance_on unchanged_body_input after "application/json" =
              Some json_body) by reflexivity.
  split; [exact H|].
  destruct (matcher_on_bodies_only unchanged_body_input after
              (standalone xml_only) users_get_operation "application/json"
              json_body H) as (_ & Hcalls & Hreject & _ & Hrun & _).
  split; [exact Hcalls|]. split; [apply Hreject; reflexivity|].
  split; [exact Hrun | reflexivity].
Defined.

(** The added body gets one Result in the after pass, for the one
    requirement registered, and it is the one Result of the run. *)
Lemma one_result_per_assertion_witness :
  executes Fixture.Context Fixture.collaborators Fixture.body_snapshot
    Fixture.property_snapshot Spec.schedule /\
  length
    (body_results added_body_input after
       (contained breaking_changes no_required_removal) users_get_operation
       "application/json" json_body) = 1 /\
  length (runRequestRules added_body_input) = 1.
Proof.
  split; [exact fixture_executes|].
  pose proof
    (one_result_per_assertion Fixture.Context Fixture.body_snapshot
       Fixture.property_snapshot Spec.schedule added_body_input after
       (contained breaking_changes no_required_removal)
       users_get_operation "application/json" json_body
       fixture_executes) as H.
  split; [exact (proj1 (proj2 (proj2 H)))|].
  exact (proj2 (proj2 (proj2 (proj2 (proj2 (proj2 (proj2 H))))))).
Defined.

(** The requirement of the example raises on the body without a type:
    the run still returns, with one failing Result for the invocation
    of each pass. *)
Lemma predicate_failures_become_results_witness :
  executes Fixture.Context Fixture.collaborators Fixture.body_snapshot
    Fixture.property_snapshot Spec.schedule /\
  map snd (run_invocations Fixture.Context Spec.schedule untyped_input) =
  [inl (Spec.RuleError "request body does not have `type`");
   inl (Spec.RuleError "request body does not have `type`")] /\
  Forall2 result_of
    (run_invocations Fixture.Context Spec.schedule untyped_input)
    (runRequestRules untyped_input).
Proof.
  split; [exact fixture_executes|]. split; [reflexivity|].
  exact (proj1
           (predicate_failures_become_results Fixture.Context
              Fixture.body_snapshot Fixture.property_snapshot Spec.schedule
              untyped_input fixture_executes)).
Defined.

End ExampleProofs.

(** ** More on the runner *)

Section RunnerMore.
Context `{C : Collaborators}.
Variable input : Inputs.

(** X1.  Rules are evaluated independently of each other: the Results
    and the calls of a run on the rules [l1 ++ l2] are those of a run on
    [l1] followed by those of a run on [l2], everything else in the
    argument being the same. *)
Theorem runRequestRules_app (l1 l2 : list Rules) :
  runRequestRules (with_rules input (l1 ++ l2)) =
  runRequestRules (with_rules input l1)
  ++ runRequestRules (with_rules input l2) /\
  runRequestRules_calls (with_rules input (l1 ++ l2)) =
  runRequestRules_calls (with_rules input l1)
  ++ runRequestRules_calls (with_rules input l2).
Proof.
  rewrite !runRequestRules_eq, !runRequestRules_calls_eq,
    !getRequestRules_eq.
  cbn [rules with_rules]. rewrite !flat_map_app. split; reflexivity.
Qed.

Lemma filter_none {A : Type} (f : A -> bool) (l : list A) :
  (forall x, In x l -> f x = false) -> List.filter f l = [].
Proof.
  induction l as [|x l IH]; [done|]. intros H. simpl.
  rewrite (H x); [|by left]. apply IH. intros y Hy. apply H. by right.
Qed.

Lemma pass_call_not_rule (s : Side) (op : Operation) (e : Event) :
  pass_call input s op e -> is_call_rule e = false.
Proof. by destruct e. Qed.

Lemma filter_rule_pass_calls (s : Side) (fr : FlatRule) :
  List.filter is_call_rule (pass_calls input s fr) =
  match operation_on input s with
  | Some op => [call_rule fr createRequestAssertions (context_on input s op)]
  | None => []
  end.
Proof.
  unfold pass_calls. destruct (operation_on input s) as [op|]; [|done].
  cbn [List.filter is_call_rule]. f_equal.
  apply filter_none. intros e He.
  apply in_flat_map in He as [ct [Hct He]].
  eapply pass_call_not_rule, content_type_calls_pass_call; eauto.
Qed.

(** X2.  The rule body is called once per flattened rule and per side on
    which the operation exists, however many content types and
    properties the request has. *)
Theorem rule_body_call_count :
  length (List.filter is_call_rule (runRequestRules_calls input)) =
  length (getRequestRules (rules input)) * sides_with_operation input.
Proof.
  rewrite runRequestRules_calls_eq. unfold sides_with_operation.
  induction (getRequestRules (rules input)) as [|fr l IH]; [done|].
  cbn [flat_map]. rewrite List.filter_app, length_app, IH.
  unfold rule_calls. rewrite List.filter_app, length_app.
  rewrite !filter_rule_pass_calls.
  destruct (operation_on input before), (operation_on input after);
    simpl; lia.
Qed.

Lemma filter_matches_content_type (s : Side) (fr : FlatRule)
    (op : Operation) (contentType0 : string) :
  List.filter is_call_matches
    (content_type_calls input s fr op contentType0) =
  match instance_on input s contentType0 with
  | Some b => matcher_calls fr b (context_on input s op)
  | None => []
  end.
Proof.
  unfold content_type_calls.
  destruct (instance_on input s contentType0) as [b|]; [|done].
  rewrite List.filter_app.
  assert (List.filter is_call_matches
            (if accepted fr b (context_on input s op)
             then body_call input s contentType0 b
                  :: map (property_call input s contentType0)
                       (JsMap.entries (properties b))
             else []) = []) as ->.
  { apply filter_none. intros e He.
    destruct (accepted fr b (context_on input s op)); [|done].
    destruct He as [<-|He]; [by destruct s|].
    apply in_map_iff in He as [kp [<- _]]. by destruct s. }
  rewrite app_nil_r. unfold matcher_calls.
  by destruct (matches (base fr)).
Qed.

Lemma pass_matcher_calls (s : Side) (fr : FlatRule) :
  length (List.filter is_call_matches (pass_calls input s fr)) =
  if has_matcher fr && is_some (operation_on input s)
  then length (content_types_on input s) else 0.
Proof.
  unfold pass_calls, content_types_on, has_matcher.
  destruct (operation_on input s) as [op|];
    [|by rewrite andb_false_r].
  rewrite andb_true_r. cbn [List.filter is_call_matches].
  induction (JsMap.keys (bodies (request input))) as [|ct l IH].
  { by destruct (is_some (matches (base fr))). }
  cbn [flat_map List.filter].
  rewrite List.filter_app, length_app, IH, filter_matches_content_type.
  unfold matcher_calls.
  destruct (instance_on input s ct) as [b|], (matches (base fr));
    simpl; lia.
Qed.

(** X3.  In a run, a flattened rule with a matcher has its matcher
    called once for every content type that has a body on a side, on
    each side on which the operation exists, whether the earlier answers
    were yes or no; a rule without a matcher causes no matcher call.  So
    the matcher calls of the run are as many as the rules with a matcher
    times the bodies of the sides that are run, and those of one pass of
    one rule as many as the bodies of that side. *)
Theorem matcher_call_count :
  length (List.filter is_call_matches (runRequestRules_calls input)) =
  length (List.filter has_matcher (getRequestRules (rules input)))
  * matcher_sites input /\
  forall s fr,
    length (List.filter is_call_matches (pass_calls input s fr)) =
    match operation_on input s with
    | Some _ =>
        if is_some (matches (base fr))
        then length (content_types_on input s) else 0
    | None => 0
    end.
Proof.
  split.
  - rewrite runRequestRules_calls_eq. unfold matcher_sites.
    induction (getRequestRules (rules input)) as [|fr l IH]; [done|].
    cbn [flat_map List.filter].
    rewrite List.filter_app, length_app, IH.
    unfold rule_calls. rewrite List.filter_app, length_app.
    rewrite !pass_matcher_calls.
    destruct (has_matcher fr), (is_some (operation_on input before)),
      (is_some (operation_on input after)); simpl; lia.
  - intros s fr. rewrite pass_matcher_calls. unfold has_matcher.
    destruct (operation_on input s), (matches (base fr)); done.
Qed.

Lemma pass_of_missing_operation (s : Side) (fr : FlatRule) :
  operation_on input s = None ->
  pass_results input s fr = [] /\ pass_calls input s fr = [].
Proof. intros Hop. unfold pass_results, pass_calls. by rewrite Hop. Qed.

(** X4.  When the operation does not exist on one side, a run is the
    other side's pass alone: its Results and its calls are, rule after
    rule, those of the pass of the other side. *)
Theorem missing_operation_side (s : Side) :
  operation_on input s = None ->
  runRequestRules input =
  flat_map (pass_results input (other s)) (getRequestRules (rules input)) /\
  runRequestRules_calls input =
  flat_map (pass_calls input (other s)) (getRequestRules (rules input)).
Proof.
  intros Hop. rewrite runRequestRules_eq, runRequestRules_calls_eq.
  split; apply flat_map_ext; intros fr;
    destruct (pass_of_missing_operation s fr Hop) as [Hr Hc];
    unfold rule_results, rule_calls; destruct s; cbn [other];
    rewrite ?Hr, ?Hc, ?app_nil_r; reflexivity.
Qed.

(** X5.  When the operation exists on neither side, a run returns no
    Result and calls nothing, not even a rule body, whatever the rules
    and the request. *)
Theorem no_operation_no_run :
  operation_on input before = None ->
  operation_on input after = None ->
  runRequestRules input = [] /\ runRequestRules_calls input = [].
Proof.
  intros Hb Ha. rewrite runRequestRules_eq, runRequestRules_calls_eq.
  split; induction (getRequestRules (rules input)) as [|fr l IH];
    try done; cbn [flat_map]; rewrite IH;
    destruct (pass_of_missing_operation before fr Hb) as [Hr Hc];
    destruct (pass_of_missing_operation after fr Ha) as [Hr' Hc'];
    unfold rule_results, rule_calls; by rewrite ?Hr, ?Hc, ?Hr', ?Hc'.
Qed.

Lemma flat_map_nil {A B : Type} (f : A -> list B) (l : list A) :
  (forall x, In x l -> f x = []) -> flat_map f l = [].
Proof.
  induction l as [|x l IH]; [done|]. intros H. cbn [flat_map].
  rewrite (H x); [|by left]. apply IH. intros y Hy. apply H. by right.
Qed.

Lemma pass_without_bodies (s : Side) (fr : FlatRule) :
  (forall contentType0,
     In contentType0 (JsMap.keys (bodies (request input))) ->
     instance_on input s contentType0 = None) ->
  pass_results input s fr = [] /\
  pass_calls input s fr =
  match operation_on input s with
  | Some op => [call_rule fr createRequestAssertions (context_on input s op)]
  | None => []
  end.
Proof.
  intros Hnone. unfold pass_results, pass_calls.
  destruct (operation_on input s) as [op|]; [|done].
  assert (Hr : flat_map (content_type_results input s fr op)
                 (JsMap.keys (bodies (request input))) = []).
  { apply flat_map_nil. intros ct Hct. unfold content_type_results.
    by rewrite Hnone. }
  assert (Hc : flat_map (content_type_calls input s fr op)
                 (JsMap.keys (bodies (request input))) = []).
  { apply flat_map_nil. intros ct Hct. unfold content_type_calls.
    by rewrite Hnone. }
  by rewrite Hr, Hc.
Qed.

(** X6.  When no content type has a body on one side (the request body
    was added, or removed, as a whole), the pass of that side still calls
    each rule body once if the operation exists there, but calls neither
    a matcher nor the executor, and every Result of the run comes from
    the pass of the other side. *)
Theorem side_without_bodies (s : Side) :
  (forall contentType0,
     In contentType0 (JsMap.keys (bodies (request input))) ->
     instance_on input s contentType0 = None) ->
  runRequestRules input =
  flat_map (pass_results input (other s)) (getRequestRules (rules input)) /\
  forall fr,
    pass_calls input s fr =
    match operation_on input s with
    | Some op =>
        [call_rule fr createRequestAssertions (context_on input s op)]
    | None => []
    end.
Proof.
  intros Hnone. split; [|intros fr; by apply pass_without_bodies].
  rewrite runRequestRules_eq. apply flat_map_ext. intros fr.
  destruct (pass_without_bodies s fr Hnone) as [Hr _].
  unfold rule_results. destruct s; cbn [other];
    by rewrite Hr, ?app_nil_r.
Qed.

Lemma request_rules_in (l : list Rule) (q : RequestRule) :
  In q (request_rules l) -> In (ARequestRule q) l.
Proof.
  unfold request_rules. rewrite in_flat_map.
  intros [[r|o] [Hx Hq]]; [|done]. by destruct Hq as [<-|[]].
Qed.

(** A flattened rule is a rule given on its own or a request rule of a
    ruleset of the input. *)
Lemma getRequestRules_cases (l : list Rules) (fr : FlatRule) :
  In fr (getRequestRules l) ->
  (exists r0, In (IsRule (ARequestRule r0)) l /\ fr = standalone r0) \/
  exists rs q,
    In (IsRuleset rs) l /\ In (ARequestRule q) (ruleset_rules rs) /\
    fr = contained rs q.
Proof.
  rewrite getRequestRules_eq, in_flat_map.
  intros [[[r0|o]|rs] [Hx Hfr]]; simpl in Hfr.
  - destruct Hfr as [<-|[]]. left. by exists r0.
  - done.
  - apply in_map_iff in Hfr as [q [<- Hq]]. right. exists rs, q.
    split; [done|]. split; [by apply request_rules_in | done].
Qed.

(** X7.  The docs link of a Result.  Every Result of a run comes from a
    request rule given on its own in the input, and then has that
    rule's name and docs link, or from a request rule of a ruleset of
    the input, and then has that rule's name and, as docs link, the
    rule's own when it is a non-empty string and the ruleset's
    otherwise.  Conversely each such rule is among the flattened rules
    whose Results make up the run, and all its Results have that docs
    link. *)
Theorem result_docsLink :
  Forall
    (fun r =>
       (exists r0,
          In (IsRule (ARequestRule r0)) (rules input) /\
          r_name r = name r0 /\ r_docsLink r = docsLink r0) \/
       exists rs q,
         In (IsRuleset rs) (rules input) /\
         In (ARequestRule q) (ruleset_rules rs) /\
         r_name r = name q /\
         r_docsLink r =
         match docsLink q with
         | Some d => if String.eqb d "" then ruleset_docsLink rs else Some d
         | None => ruleset_docsLink rs
         end)
    (runRequestRules input) /\
  runRequestRules input =
  flat_map (rule_results input) (getRequestRules (rules input)) /\
  (forall r0,
     In (IsRule (ARequestRule r0)) (rules input) ->
     In (standalone r0) (getRequestRules (rules input)) /\
     Forall (fun r => r_docsLink r = docsLink r0)
       (rule_results input (standalone r0))) /\
  (forall rs q,
     In (IsRuleset rs) (rules input) ->
     In (ARequestRule q) (ruleset_rules rs) ->
     In (contained rs q) (getRequestRules (rules input)) /\
     Forall
       (fun r =>
          r_docsLink r =
          match docsLink q with
          | Some d => if String.eqb d "" then ruleset_docsLink rs else Some d
          | None => ruleset_docsLink rs
          end)
       (rule_results input (contained rs q))).
Proof.
  split; [|split; [apply runRequestRules_eq|split]].
  - apply List.Forall_forall. intros r Hr.
    rewrite runRequestRules_eq in Hr.
    apply in_flat_map in Hr as [fr [Hfr Hr]].
    apply rule_results_fields in Hr as (Hn & Hd & _).
    apply getRequestRules_cases in Hfr
      as [(r0 & Hin & ->)|(rs & q & Hrs & Hq & ->)].
    + left. by exists r0.
    + right. by exists rs, q.
  - intros r0 Hin. split.
    + rewrite getRequestRules_eq. apply in_flat_map.
      exists (IsRule (ARequestRule r0)). split; [done | by left].
    + apply List.Forall_forall. intros r Hr.
      by apply rule_results_fields in Hr as (_ & -> & _).
  - intros rs q Hrs Hq. split.
    + rewrite getRequestRules_eq. apply in_flat_map.
      exists (IsRuleset rs). split; [done|]. simpl.
      apply in_map. by apply in_request_rules.
    + apply List.Forall_forall. intros r Hr.
      by apply rule_results_fields in Hr as (_ & -> & _).
Qed.

Lemma JsMap_get_of_key {V : Type} (m : JsMap.t V) (k : string) :
  In k (JsMap.keys m) ->
  exists v, JsMap.get m k = Some v /\ In (k, v) m.
Proof.
  induction m as [|[k' v'] m IH]; [done|]. simpl.
  destruct (String.eqb_spec k' k) as [->|Hne].
  - intros _. exists v'. split; [done | by left].
  - intros [Heq|Hin]; [done|].
    destruct (IH Hin) as (v & Hget & Hv). exists v. split; [done | by right].
Qed.

(** X8.  Every content type the loops visit has a node in
    [request.bodies]: the change the executor is given for the body is
    that node's change, and the optional chaining on the lookup never
    falls back to null for want of a node. *)
Theorem visited_content_type_has_node (contentType0 : string) :
  In contentType0 (JsMap.keys (bodies (request input))) ->
  exists node,
    In (contentType0, node) (bodies (request input)) /\
    JsMap.get (bodies (request input)) contentType0 = Some node /\
    bodyChange input contentType0 = body_change node.
Proof.
  intros Hin. apply JsMap_get_of_key in Hin as (node & Hget & Hnode).
  exists node. split; [done|]. split; [done|].
  unfold bodyChange. by rewrite Hget.
Qed.

End RunnerMore.

(** ** More on the rule-runner factory *)

Section FactoryMore.
Context `{D : Domain}.
Variable Standard : Type.
Variables (StandardRulesets : gmap string Standard)
  (getManyRulesetsByName : list string -> list (option HostedRuleset))
  (prepareRulesets : InputPayload Standard -> Prepared).

Lemma first_loop (l : list RulesetRef) (f : Frame) :
  Run.forM_ l (fun rule0 =>
     if in_object (ref_name rule0) StandardRulesets then
       Run.ret tt
     else if isLocalJsFile (ref_name rule0) then
       Run.modify (set_localRuleset (ref_name rule0) (ref_name rule0))
     else Run.modify (push_rulesToFetch (ref_name rule0))) f =
  (tt,
   {| rulesets := rulesets f;
      rulesToFetch :=
        rulesToFetch f
        ++ names_to_fetch StandardRulesets {| ruleset := l |};
      localRulesets :=
        local_map (local_names StandardRulesets {| ruleset := l |})
          (localRulesets f);
      hostedRulesets := hostedRulesets f;
      stderr := stderr f |}).
Proof.
  revert f. induction l as [|x l IH]; intros f.
  - destruct f. cbn. unfold Run.ret. by rewrite app_nil_r.
  - cbn [Run.forM_]. unfold Run.bind.
    unfold names_to_fetch, local_names, is_standard in *.
    cbn [ruleset map List.filter] in *.
    destruct (in_object (ref_name x) StandardRulesets).
    + unfold Run.ret. rewrite IH. done.
    + cbn [negb andb]. destruct (isLocalJsFile (ref_name x)).
      * unfold Run.modify. rewrite IH. done.
      * unfold Run.modify. rewrite IH. cbn [negb].
        destruct f; cbn. by rewrite <- app_assoc.
Qed.

Lemma second_loop (response : list (option HostedRuleset)) (f : Frame) :
  Run.forM_ response (fun hostedRuleset =>
     match hostedRuleset with
     | Some h =>
         Run.modify
           (set_hostedRuleset (hosted_name h)
              {| entry_uploaded_at := uploaded_at h; entry_url := url h |})
     | None => Run.ret tt
     end) f =
  (tt,
   {| rulesets := rulesets f;
      rulesToFetch := rulesToFetch f;
      localRulesets := localRulesets f;
      hostedRulesets := hosted_map response (hostedRulesets f);
      stderr := stderr f |}).
Proof.
  revert f. induction response as [|[h|] l IH]; intros f.
  - by destruct f.
  - cbn [Run.forM_]. unfold Run.bind, Run.modify. by rewrite IH.
  - cbn [Run.forM_]. unfold Run.bind, Run.ret. by rewrite IH.
Qed.

(** The whole call with checks enabled. *)
Lemma generateRuleRunner_enabled (config : OpticCliConfig)
    (stderr0 : list string) :
  generateRuleRunner StandardRulesets getManyRulesetsByName prepareRulesets
    config true stderr0 =
  ({| runner_rules :=
        map IsRuleset
          (prepared_rulesets
             (prepareRulesets
                (payload_of StandardRulesets getManyRulesetsByName config)))
   |},
   stderr0
   ++ warnings
        (prepareRulesets
           (payload_of StandardRulesets getManyRulesetsByName config))).
Proof.
  unfold generateRuleRunner, generateRuleRunner_body.
  cbn [Run.when]. unfold Run.bind at 1 2. rewrite first_loop.
  unfold Run.bind at 1 2. cbn [rulesToFetch]. rewrite second_loop.
  unfold Run.bind. unfold Run.modify at 1. rewrite forM__console_error.
  destruct config as [l]. reflexivity.
Qed.

Lemma is_standard_false (name0 : string) :
  is_standard StandardRulesets name0 = false <->
  StandardRulesets !! name0 = None /\ ~ In name0 object_prototype_names.
Proof.
  unfold is_standard, in_object.
  rewrite orb_false_iff, bool_decide_eq_false, <- eq_None_not_Some.
  rewrite <- not_true_iff_false, existsb_exists.
  split; intros [Hown Hinh]; (split; [done|]).
  - intros Hin. apply Hinh. exists name0. split; [done|].
    apply String.eqb_refl.
  - intros (x & Hin & ->%String.eqb_eq). done.
Qed.

(** No inherited property name ends in [.js]. *)
Lemma inherited_not_local (name0 : string) :
  endsWith name0 ".js" = true -> ~ In name0 object_prototype_names.
Proof.
  intros Hjs Hin.
  assert (Hall : Forall (fun n => endsWith n ".js" = false)
                   object_prototype_names)
    by (repeat constructor).
  rewrite List.Forall_forall in Hall. apply Hall in Hin. congruence.
Qed.

Lemma local_map_lookup (l : list string) (m : gmap string string)
    (k : string) :
  local_map l m !! k = if decide (k ∈ l) then Some k else m !! k.
Proof.
  revert m. induction l as [|x l IH]; intros m; [done|].
  cbn [local_map fold_left]. fold (local_map l (<[x:=x]> m)). rewrite IH.
  destruct (decide (k ∈ l)) as [Hl|Hl].
  - rewrite decide_True; [done | by right].
  - destruct (decide (k = x)) as [->|Hne].
    + rewrite lookup_insert_eq. rewrite decide_True; [done | by left].
    + rewrite lookup_insert_ne; [|done].
      rewrite decide_False; [done|]. by intros [?|?]%elem_of_cons.
Qed.




End FactoryMore.

Section FactoryProperties.
Context `{D : Domain}.
Variable Standard : Type.
Variables (StandardRulesets : gmap string Standard)
  (getManyRulesetsByName : list string -> list (option HostedRuleset))
  (prepareRulesets : InputPayload Standard -> Prepared).

(** X9.  With checks disabled the runner has no rule at all and nothing
    is written to the error stream, whatever the configuration, the
    catalogue, the registry and the resolution step; enabled or not, the
    call only ever appends to the error stream. *)
Theorem generateRuleRunner_disabled (config : OpticCliConfig)
    (stderr0 : list string) :
  generateRuleRunner StandardRulesets getManyRulesetsByName prepareRulesets
    config false stderr0 = ({| runner_rules := [] |}, stderr0) /\
  forall checksEnabled,
    exists added,
      snd (generateRuleRunner StandardRulesets getManyRulesetsByName
             prepareRulesets config checksEnabled stderr0) =
      stderr0 ++ added.
Proof.
  split; [done|]. intros [|].
  - rewrite generateRuleRunner_enabled. by eexists.
  - exists []. by rewrite app_nil_r.
Qed.

(** X10.  The names asked of the registry are the names of the
    configuration, in order, for which the [in] test on the catalogue
    fails and that do not end in [.js]: a name is skipped when it is an
    entry of the catalogue and also when it is a property name the
    catalogue object inherits, such as [toString] or [constructor].
    The call depends on the registry only through its answer for the
    names asked. *)
Theorem registry_names (config : OpticCliConfig) (stderr0 : list string)
    (registry : list string -> list (option HostedRuleset)) :
  registry (names_to_fetch StandardRulesets config) =
  getManyRulesetsByName (names_to_fetch StandardRulesets config) ->
  generateRuleRunner StandardRulesets registry prepareRulesets config true
    stderr0 =
  generateRuleRunner StandardRulesets getManyRulesetsByName prepareRulesets
    config true stderr0 /\
  (forall name0,
     In name0 (names_to_fetch StandardRulesets config) <->
     In name0 (map ref_name (ruleset config)) /\
     StandardRulesets !! name0 = None /\
     ~ In name0 object_prototype_names /\
     endsWith name0 ".js" = false) /\
  names_to_fetch StandardRulesets config =
  List.filter
    (fun name0 =>
       negb (in_object name0 StandardRulesets) && negb (endsWith name0 ".js"))
    (map ref_name (ruleset config)).
Proof.
  intros Hsame. split; [|split; [|done]].
  - rewrite !generateRuleRunner_enabled. unfold payload_of.
    by rewrite Hsame.
  - intros name0. unfold names_to_fetch. rewrite filter_In.
    rewrite andb_true_iff, !negb_true_iff, is_standard_false.
    unfold isLocalJsFile. tauto.
Qed.

(** X11.  The local rulesets handed to the resolution step map to itself
    every name of the configuration that is not in the catalogue and ends
    in [.js], and hold nothing else: a catalogue name is never taken as a
    local file, even when it ends in [.js]. *)
Theorem local_rulesets_lookup (config : OpticCliConfig)
    (stderr0 : list string) :
  exists payload : InputPayload Standard,
    generateRuleRunner StandardRulesets getManyRulesetsByName
      prepareRulesets config true stderr0 =
    ({| runner_rules :=
          map IsRuleset (prepared_rulesets (prepareRulesets payload)) |},
     stderr0 ++ warnings (prepareRulesets payload)) /\
    forall name0 path0,
      payload_localRulesets payload !! name0 = Some path0 <->
      path0 = name0 /\
      In name0 (map ref_name (ruleset config)) /\
      StandardRulesets !! name0 = None /\
      endsWith name0 ".js" = true.
Proof.
  exists (payload_of StandardRulesets getManyRulesetsByName config).
  split; [apply generateRuleRunner_enabled|].
  intros name0 path0. cbn [payload_of payload_localRulesets].
  rewrite local_map_lookup, lookup_empty.
  assert (Hin : name0 ∈ local_names StandardRulesets config <->
                In name0 (map ref_name (ruleset config)) /\
                StandardRulesets !! name0 = None /\
                endsWith name0 ".js" = true).
  { rewrite list_elem_of_In. unfold local_names. rewrite filter_In.
    rewrite andb_true_iff, negb_true_iff, is_standard_false.
    unfold isLocalJsFile. pose proof (inherited_not_local name0). tauto. }
  destruct (decide (name0 ∈ local_names StandardRulesets config))
    as [Hl|Hl].
  - split; [intros [= <-]; by apply Hin in Hl|by intros [-> _]].
  - split; [done|]. intros [_ H]. by apply Hin in H.
Qed.


End FactoryProperties.

(** ** commands/verify.ts *)

Section VerifyProofs.
Import Verify.

(** *** trackStats *)

Lemma exec_forM__cons {St A : Type} (f : A -> Run.M St unit) (x : A)
    (l : list A) (s : St) :
  Run.exec (Run.forM_ (x :: l) f) s =
  Run.exec (Run.forM_ l f) (Run.exec (f x) s).
Proof.
  unfold Run.exec. cbn [Run.forM_]. unfold Run.bind.
  by destruct (f x s).
Qed.

(** One turn of the loop of the generator. *)
Lemma trackStats_step (o : StatusObservation) (t : Tracking) :
  let t1 := Run.exec (trackStats_generator [o]) t in
  match kind o with
  | OtherObservation => t1 = t
  | _ =>
      yielded t1 = yielded t ++ [stats t1] /\
      total (stats t1) = total (stats t) + 1
  end /\
  unmatchedPathsCount (stats t1) =
  unmatchedPathsCount (stats t) + count_kind InteractionUnmatchedPath [o] /\
  unmatchedMethodsCount (stats t1) =
  unmatchedMethodsCount (stats t)
  + count_kind InteractionUnmatchedMethod [o] /\
  capturedInteractionsCount (stats t1) =
  capturedInteractionsCount (stats t) + count_kind InteractionCaptured [o] /\
  matchedInteractionsCount (stats t1) =
  matchedInteractionsCount (stats t)
  + count_kind InteractionMatchedOperation [o].
Proof.
  unfold trackStats_generator, Run.exec, count_kind. cbn [Run.forM_].
  unfold Run.bind at 1. cbn [List.filter].
  destruct t as [[a b c d] ys].
  destruct (kind o); cbn; unfold total; cbn; repeat split; lia.
Qed.

Lemma trackStats_from (observations : list StatusObservation)
    (t : Tracking) :
  let t' := Run.exec (trackStats_generator observations) t in
  unmatchedPathsCount (stats t') =
  unmatchedPathsCount (stats t)
  + count_kind InteractionUnmatchedPath observations /\
  unmatchedMethodsCount (stats t') =
  unmatchedMethodsCount (stats t)
  + count_kind InteractionUnmatchedMethod observations /\
  capturedInteractionsCount (stats t') =
  capturedInteractionsCount (stats t)
  + count_kind InteractionCaptured observations /\
  matchedInteractionsCount (stats t') =
  matchedInteractionsCount (stats t)
  + count_kind InteractionMatchedOperation observations /\
  exists ys,
    yielded t' = yielded t ++ ys /\
    length ys + count_kind OtherObservation observations =
    length observations /\
    forall i s, ys !! i = Some s -> total s = total (stats t) + i + 1.
Proof.
  revert t. induction observations as [|o l IH]; intros t.
  - cbn. do 4 (split; [lia|]). exists []. rewrite app_nil_r.
    repeat split. intros i s Hs. by rewrite lookup_nil in Hs.
  - cbn zeta. unfold trackStats_generator. rewrite exec_forM__cons.
    pose proof (trackStats_step o t) as Hstep. cbn zeta in Hstep.
    unfold trackStats_generator in Hstep.
    rewrite exec_forM__cons in Hstep.
    change (Run.exec (Run.forM_ [] ?f) ?s) with s in Hstep.
    set (t1 := Run.exec _ t) in *. clearbody t1.
    destruct Hstep as (Hy1 & S1 & S2 & S3 & S4).
    specialize (IH t1). cbn zeta in IH. unfold trackStats_generator in IH.
    destruct IH as (H1 & H2 & H3 & H4 & ys & Hy & Hlen & Htot).
    assert (Hc : forall k,
              count_kind k (o :: l) = count_kind k [o] + count_kind k l).
    { intros k. unfold count_kind. cbn [List.filter].
      destruct (Kind_eqb (kind o) k); cbn; lia. }
    rewrite H1, H2, H3, H4, S1, S2, S3, S4, !Hc.
    do 4 (split; [lia|]).
    assert (Ho : count_kind OtherObservation [o] =
                 if Kind_eqb (kind o) OtherObservation then 1 else 0).
    { unfold count_kind. cbn [List.filter].
      by destruct (Kind_eqb (kind o) OtherObservation). }
    rewrite Ho. clear Ho.
    destruct (kind o) eqn:Hk; cbn [Kind_eqb length].
    5: { rewrite Hy1 in *. exists ys. split; [done|]. split; [lia|done]. }
    all: destruct Hy1 as [Hy1 Ht1];
      exists (stats t1 :: ys);
      (split; [by rewrite Hy, Hy1, <- app_assoc|]);
      (split; [cbn [length]; lia|]);
      intros [|i] s Hs; cbn in Hs;
      [injection Hs as <-; lia | apply Htot in Hs; lia].
Qed.

(** X13.  When the generator of [trackStats] has run through the
    observations, each of the four counters of [stats] is the number of
    observations of its kind; observations of any other kind change
    nothing. *)
Theorem trackStats_counts (observations : list StatusObservation) :
  stats (trackStats observations) =
  {| unmatchedPathsCount :=
       count_kind InteractionUnmatchedPath observations;
     unmatchedMethodsCount :=
       count_kind InteractionUnmatchedMethod observations;
     capturedInteractionsCount :=
       count_kind InteractionCaptured observations;
     matchedInteractionsCount :=
       count_kind InteractionMatchedOperation observations |}.
Proof.
  unfold trackStats.
  destruct (trackStats_from observations
              {| stats :=
                   {| unmatchedPathsCount := 0; unmatchedMethodsCount := 0;
                      capturedInteractionsCount := 0;
                      matchedInteractionsCount := 0 |};
                 yielded := [] |}) as (H1 & H2 & H3 & H4 & _).
  cbn in H1, H2, H3, H4.
  destruct (stats _) as [a b c d]. cbn in *. by subst.
Qed.

(** X14.  The generator of [trackStats] yields once per observation of
    one of the four kinds and never for another kind; what the consumer
    reads at the yield of rank [i] (from 0) is a [stats] whose four
    counters sum to [i + 1], so every yield shows exactly one more
    counted observation than the one before. *)
Theorem trackStats_yields (observations : list StatusObservation) :
  length (yielded (trackStats observations))
  + count_kind OtherObservation observations = length observations /\
  forall i s,
    yielded (trackStats observations) !! i = Some s -> total s = i + 1.
Proof.
  unfold trackStats.
  destruct (trackStats_from observations
              {| stats :=
                   {| unmatchedPathsCount := 0; unmatchedMethodsCount := 0;
                      capturedInteractionsCount := 0;
                      matchedInteractionsCount := 0 |};
                 yielded := [] |})
    as (_ & _ & _ & _ & ys & Hy & Hlen & Htot).
  cbn in Hy. rewrite Hy. split; [done|].
  intros i s Hs. apply Htot in Hs. by rewrite Hs.
Qed.

(** *** renderOperationStatus *)

Lemma upper_ascii_idempotent (c : ascii) :
  upper_ascii (upper_ascii c) = upper_ascii c.
Proof. destruct c as [[] [] [] [] [] [] [] []]; reflexivity. Qed.

Lemma toUpperCase_idempotent (s : string) :
  toUpperCase (toUpperCase s) = toUpperCase s.
Proof.
  induction s as [|c s IH]; [done|]. simpl.
  by rewrite upper_ascii_idempotent, IH.
Qed.

Lemma toUpperCase_length (s : string) :
  String.length (toUpperCase s) = String.length s.
Proof. induction s as [|c s IH]; [done|]. simpl. by rewrite IH. Qed.

Lemma string_length_app (a b : string) :
  String.length (a ++ b)%string = String.length a + String.length b.
Proof. induction a as [|c a IH]; [done|]. simpl. by rewrite IH. Qed.

Lemma string_app_assoc (a b c : string) :
  ((a ++ b) ++ c)%string = (a ++ b ++ c)%string.
Proof.
  induction a as [|x a IH]; [done|].
  change (String x ((a ++ b) ++ c)%string = String x (a ++ b ++ c)%string).
  by f_equal.
Qed.

Lemma padStart_length (s : string) (n : nat) (c : ascii) :
  String.length (padStart s n c) = Nat.max n (String.length s).
Proof.
  unfold padStart. rewrite string_length_app.
  assert (H : forall k, String.length (string_of_list_ascii (repeat c k)) = k).
  { induction k as [|k IH]; [done|]. simpl. by rewrite IH. }
  rewrite H. lia.
Qed.

Section RenderProofs.
Variable bgYellow : string -> string.

Lemma render_methods (pathPattern0 : string) (ms : list string)
    (r : Rendering) :
  Run.forM_ ms (fun method0 =>
     renderUndocumentedPath bgYellow (toUpperCase method0) pathPattern0) r =
  (tt,
   {| undocumentedPaths := undocumentedPaths r;
      written :=
        written r ++ map (undocumented_line bgYellow pathPattern0) ms |}).
Proof.
  revert r. induction ms as [|m ms IH]; intros r.
  - destruct r. cbn. unfold Run.ret. by rewrite app_nil_r.
  - cbn [Run.forM_]. unfold Run.bind.
    unfold renderUndocumentedPath at 1, write, Run.modify.
    rewrite IH. cbn [undocumentedPaths written map].
    rewrite toUpperCase_idempotent. unfold undocumented_line at 2.
    by rewrite <- app_assoc.
Qed.

Lemma render_paths (paths : list UndocumentedPath) (r : Rendering) :
  Run.forM_ paths (fun unmatchedPath =>
     Run.bind
       (Run.modify
          (fun r0 =>
             {| undocumentedPaths := undocumentedPaths r0 + 1;
                written := written r0 |}))
       (fun _ =>
          Run.forM_ (methods unmatchedPath) (fun method0 =>
            renderUndocumentedPath bgYellow (toUpperCase method0)
              (pathPattern unmatchedPath)))) r =
  (tt,
   {| undocumentedPaths := undocumentedPaths r + length paths;
      written :=
        written r
        ++ flat_map
             (fun p =>
                map (undocumented_line bgYellow (pathPattern p)) (methods p))
             paths |}).
Proof.
  revert r. induction paths as [|p paths IH]; intros r.
  - destruct r. cbn. unfold Run.ret. by rewrite app_nil_r, Nat.add_0_r.
  - cbn [Run.forM_]. unfold Run.bind at 1. unfold Run.bind at 1.
    unfold Run.modify at 1. rewrite render_methods, IH.
    cbn [undocumentedPaths written flat_map length].
    rewrite <- app_assoc.
    replace (undocumentedPaths r + 1 + length paths)
      with (undocumentedPaths r + S (length paths)) by lia.
    reflexivity.
Qed.

(** X15.  [renderOperationStatus] returns the number of undocumented
    paths, not of the lines it prints: it writes, after what was written
    before, one line per method of each path, in order, with the method
    in upper case (upper-casing it twice changes nothing), and then the
    two instructions, only when there is at least one path.  A path
    without methods is counted and prints no line. *)
Theorem renderOperationStatus_writes (pathsToAdd : list UndocumentedPath)
    (written0 : list Output) :
  renderOperationStatus bgYellow pathsToAdd written0 =
  (length pathsToAdd,
   written0
   ++ flat_map
        (fun p =>
           map
             (fun method0 =>
                console_log
                  (bgYellow "Undocumented" ++ " "
                   ++ padStart (toUpperCase method0) 6 " " ++ "   "
                   ++ pathPattern p)%string)
             (methods p))
        pathsToAdd
   ++ match pathsToAdd with
      | [] => []
      | _ :: _ =>
          [commandInstruction "--document all" "to document these paths";
           commandInstruction
             ("--document " ++ quote ++ "[method path], ..." ++ quote)%string
             "to document or more paths"]
      end).
Proof.
  unfold renderOperationStatus, renderOperationStatus_body.
  destruct pathsToAdd as [|p paths].
  - cbn. by rewrite app_nil_r.
  - cbn [length Nat.eqb negb Run.when]. unfold Run.bind at 1 2.
    rewrite render_paths. unfold Run.bind, write, Run.modify.
    cbn [undocumentedPaths written length].
    rewrite <- !app_assoc. reflexivity.
Qed.

(** X16.  The line [renderUndocumentedPath] prints for a method of
    ASCII characters, on which the upper-casing above is JavaScript's, of
    at most six characters: it is appended to what was written, and the
    path pattern starts in the same column whatever the method, what
    precedes it being as long as the coloured label plus ten
    characters. *)
Theorem undocumented_line_column (pathPattern0 method0 : string)
    (r : Rendering) :
  is_ascii method0 = true ->
  String.length method0 <= 6 ->
  exists prefix,
    Run.exec (renderUndocumentedPath bgYellow method0 pathPattern0) r =
    {| undocumentedPaths := undocumentedPaths r;
       written := written r ++ [console_log (prefix ++ pathPattern0)%string]
    |} /\
    String.length prefix = String.length (bgYellow "Undocumented") + 10.
Proof.
  intros _ Hlen.
  exists (bgYellow "Undocumented" ++ " "
          ++ padStart (toUpperCase method0) 6 " " ++ "   ")%string.
  split.
  - unfold renderUndocumentedPath, write, Run.exec, Run.modify.
    cbn [snd]. by rewrite !string_app_assoc.
  - rewrite !string_length_app, padStart_length, toUpperCase_length.
    cbn [String.length]. lia.
Qed.

End RenderProofs.

(** *** getInteractions *)

Lemma leb_trans (a b c : string) :
  String.leb a b = true -> String.leb b c = true -> String.leb a c = true.
Proof.
  unfold String.leb. revert b c.
  induction a as [|x a IH]; intros [|y b] [|z c]; simpl; try done.
  unfold Ascii.compare.
  destruct (N.compare_spec (N_of_ascii x) (N_of_ascii y)) as [Hxy|Hxy|Hxy];
    destruct (N.compare_spec (N_of_ascii y) (N_of_ascii z)) as [Hyz|Hyz|Hyz];
    destruct (N.compare_spec (N_of_ascii x) (N_of_ascii z)) as [Hxz|Hxz|Hxz];
    try done; try lia.
  apply IH.
Qed.

#[local] Instance code_unit_le_total : Total code_unit_le.
Proof. intros a b. apply String.leb_total. Qed.

#[local] Instance code_unit_le_trans : Transitive code_unit_le.
Proof. intros a b c. apply leb_trans. Qed.

Lemma filter_Permutation_bool {A : Type} (f : A -> bool) (l l' : list A) :
  l ≡ₚ l' -> List.filter f l ≡ₚ List.filter f l'.
Proof.
  induction 1 as [|x l l' _ IH|x y l|l l' l'' _ IH1 _ IH2]; simpl.
  - done.
  - destruct (f x); [by constructor | done].
  - destruct (f x), (f y); try done. apply perm_swap.
  - by etrans.
Qed.

Lemma filter_StronglySorted {A : Type} (R : A -> A -> Prop)
    (f : A -> bool) (l : list A) :
  StronglySorted R l -> StronglySorted R (List.filter f l).
Proof.
  induction 1 as [|x l _ IH Hx]; simpl; [constructor|].
  destruct (f x); [|done]. constructor; [done|].
  apply List.Forall_forall. intros y Hy. apply filter_In in Hy as [Hy _].
  by eapply List.Forall_forall in Hx.
Qed.

Section GetInteractionsProofs.
Variables (captureStorage : string -> string)
  (readdir : string -> list string)
  (pathExists : string -> bool)
  (resolve : string -> string)
  (join : string -> string -> string).

Lemma collect_captures (dir : string) (names : list string)
    (sources : list CapturedInteractions) :
  Run.exec
    (Run.forM_ names (fun potentialCapture =>
       Run.when (endsWith potentialCapture ".har")
         (Run.modify (fun sources0 =>
            sources0 ++ [fromHarFile (join dir potentialCapture)]))))
    sources =
  sources
  ++ map (fun name0 => fromHarFile (join dir name0))
       (completed_captures names).
Proof.
  revert sources. induction names as [|n names IH]; intros sources.
  - cbn. by rewrite app_nil_r.
  - rewrite exec_forM__cons, IH. unfold completed_captures.
    cbn [List.filter]. destruct (endsWith n ".har"); cbn.
    + by rewrite <- app_assoc.
    + done.
Qed.

(** X18.  Without [--har], or with the empty string for it, the sources
    are read from the entries of the capture directory whose name ends in
    [.har], each once, in ascending order of their names; when no entry
    ends in [.har] the result is the error [CAPTURE_METHOD_MISSING]. *)
Theorem getInteractions_directory (har : option string)
    (specPath : string) :
  har = None \/ har = Some "" ->
  exists names,
    names ≡ₚ completed_captures (readdir (captureStorage specPath)) /\
    StronglySorted code_unit_le names /\
    getInteractions captureStorage readdir pathExists resolve join har
      specPath =
    match names with
    | [] =>
        inputError
          ("no traffic captured for this OpenAPI spec. Run " ++ quote
           ++ "oas capture" ++ quote ++ " command")%string
          CAPTURE_METHOD_MISSING
    | _ :: _ =>
        merged
          (map (fun name0 => fromHarFile (join (captureStorage specPath) name0))
             names)
    end.
Proof.
  intros Hhar.
  exists (completed_captures (sort (readdir (captureStorage specPath)))).
  split; [|split].
  - apply filter_Permutation_bool, merge_sort_Permutation.
  - apply filter_StronglySorted, StronglySorted_merge_sort; apply _.
  - assert (Hrun :
      getInteractions captureStorage readdir pathExists resolve join har
        specPath =
      merge_or_error
        (map (fun name0 => fromHarFile (join (captureStorage specPath) name0))
           (completed_captures (sort (readdir (captureStorage specPath)))))).
    { unfold getInteractions.
      destruct Hhar as [->| ->]; cbn [String.eqb negb];
        by rewrite collect_captures. }
    rewrite Hrun. unfold merge_or_error.
    by destruct (completed_captures _).
Qed.

End GetInteractionsProofs.

Section GetInteractionsSettledProofs.
Variables (captureStorage : string -> option string)
  (readdir : string -> option (list string))
  (pathExists : string -> bool)
  (resolve : string -> string)
  (join : string -> string -> string).

(** X17.  With a non-empty [--har] option the capture storage and the
    capture directory are still read first, and the call is rejected when
    one of the two reads fails.  When both succeed, what the directory
    holds is not used: the result is the single source read from the
    resolved path when that path exists, and the error
    [HAR_FILE_NOT_FOUND] when it does not; the error of missing captures
    never comes. *)
Theorem getInteractions_har (h specPath : string) :
  h <> "" ->
  getInteractions_settled captureStorage readdir pathExists resolve join
    (Some h) specPath =
  match captureStorage specPath with
  | None => rejected
  | Some captureStorageDirectory =>
      match readdir captureStorageDirectory with
      | None => rejected
      | Some _ =>
          fulfilled
            (if pathExists (resolve h) then merged [fromHarFile (resolve h)]
             else
               inputError "HAR file could not be found at given path"
                 HAR_FILE_NOT_FOUND)
      end
  end.
Proof.
  intros Hh. unfold getInteractions_settled.
  destruct (captureStorage specPath) as [dir|]; [|done].
  destruct (readdir dir) as [contents|]; [|done].
  unfold getInteractions.
  apply String.eqb_neq in Hh. rewrite Hh. cbn [negb].
  by destruct (pathExists (resolve h)).
Qed.

End GetInteractionsSettledProofs.

End VerifyProofs.

(** ** Rules of other kinds *)

Section OtherRules.
Context `{C : Collaborators}.
Variable input : Inputs.

Lemma expansion_of_other (x : Rules) :
  holds_request_rule x = false -> expansion x = [].
Proof.
  destruct x as [[r|n]|rs]; simpl; [done | done |].
  intros H. unfold request_rules.
  induction (ruleset_rules rs) as [|[r|n] l IH]; simpl in *; [done|done|].
  by apply IH.
Qed.

Lemma flat_map_expansion_filter (l : list Rules) :
  flat_map expansion (List.filter holds_request_rule l) =
  flat_map expansion l.
Proof.
  induction l as [|x l IH]; [done|]. cbn [List.filter flat_map].
  destruct (holds_request_rule x) eqn:Hx.
  - cbn [flat_map]. by rewrite IH.
  - by rewrite (expansion_of_other x Hx), IH.
Qed.

(** X19.  Rules of other kinds (operation, response and specification
    rules) and rulesets that hold no request rule are ignored by the
    request runner: removing them from the rules changes neither the
    Results nor the calls of a run. *)
Theorem other_rules_ignored (l : list Rules) :
  runRequestRules (with_rules input (List.filter holds_request_rule l)) =
  runRequestRules (with_rules input l) /\
  runRequestRules_calls
    (with_rules input (List.filter holds_request_rule l)) =
  runRequestRules_calls (with_rules input l).
Proof.
  rewrite !runRequestRules_eq, !runRequestRules_calls_eq,
    !getRequestRules_eq.
  cbn [rules with_rules]. rewrite flat_map_expansion_filter.
  split; reflexivity.
Qed.

End OtherRules.

(** ** Local file names *)

Lemma substring_suffix (s p : string) :
  substring (String.length p) (String.length s) (p ++ s)%string = s.
Proof.
  induction p as [|c p IH].
  - change ("" ++ s)%string with s. cbn [String.length].
    induction s as [|c s IH]; [done|]. cbn [String.length substring].
    by rewrite IH.
  - change (String c p ++ s)%string with (String c (p ++ s)%string).
    cbn [String.length substring]. exact IH.
Qed.

Lemma substring_split (k : nat) (s : string) :
  k <= String.length s ->
  exists p,
    s = (p ++ substring k (String.length s - k) s)%string /\
    String.length p = k.
Proof.
  revert s. induction k as [|k IH]; intros s Hk.
  - exists ""%string. split; [|done]. rewrite Nat.sub_0_r.
    change ("" ++ ?x)%string with x.
    induction s as [|c s IHs]; [done|]. cbn [String.length substring].
    f_equal. apply IHs. lia.
  - destruct s as [|c s]; [cbn in Hk; lia|].
    destruct (IH s) as (p & Hp & Hlen); [cbn in Hk; lia|].
    exists (String c p). split; [|cbn; by rewrite Hlen].
    change (String c p ++ ?x)%string with (String c (p ++ x)%string).
    cbn [String.length substring Nat.sub]. by rewrite <- Hp.
Qed.

(** X20.  A ruleset name is taken as a local file exactly when it is
    some string followed by [.js]: the test looks at the end of the name
    only, so [.js] alone is a local file and [x.js.map] is not. *)
Theorem isLocalJsFile_spec (name0 : string) :
  isLocalJsFile name0 = true <-> exists p, name0 = (p ++ ".js")%string.
Proof.
  unfold isLocalJsFile, endsWith. split.
  - intros H. apply andb_true_iff in H as [Hlen Heq].
    apply Nat.leb_le in Hlen. apply String.eqb_eq in Heq.
    destruct (substring_split (String.length name0 - String.length ".js")
                name0) as (p & Hp & Hplen); [lia|].
    exists p.
    replace (String.length name0
             - (String.length name0 - String.length ".js"))
      with (String.length ".js") in Hp by lia.
    by rewrite Heq in Hp.
  - intros [p ->]. apply andb_true_iff. split.
    + apply Nat.leb_le. rewrite string_length_app. lia.
    + apply String.eqb_eq. rewrite string_length_app.
      replace (String.length p + String.length ".js" - String.length ".js")
        with (String.length p) by lia.
      apply substring_suffix.
Qed.

(** ** More examples *)

Section MoreExampleProofs.
Import Examples MoreExamples Verify.
#[local] Existing Instance Fixture.domain.
#[local] Existing Instance Fixture.collaborators.

(** An added operation: the run is the after pass alone. *)
Lemma missing_operation_side_witness :
  operation_on added_operation_input before = None /\
  runRequestRules added_operation_input =
  flat_map (pass_results added_operation_input after)
    (getRequestRules (rules added_operation_input)).
Proof.
  assert (H : operation_on added_operation_input before = None)
    by reflexivity.
  split; [exact H|].
  exact (proj1 (missing_operation_side added_operation_input before H)).
Defined.

(** An operation on neither side: nothing happens. *)
Lemma no_operation_no_run_witness :
  operation_on nowhere_input before = None /\
  operation_on nowhere_input after = None /\
  runRequestRules nowhere_input = [] /\
  runRequestRules_calls nowhere_input = [].
Proof.
  assert (H1 : operation_on nowhere_input before = None) by reflexivity.
  assert (H2 : operation_on nowhere_input after = None) by reflexivity.
  split; [exact H1|]. split; [exact H2|].
  exact (no_operation_no_run nowhere_input H1 H2).
Defined.

(** An added body: no content type has a body on the before side. *)
Lemma side_without_bodies_witness :
  (forall contentType0,
     In contentType0 (JsMap.keys (bodies (request added_body_input))) ->
     instance_on added_body_input before contentType0 = None) /\
  runRequestRules added_body_input =
  flat_map (pass_results added_body_input after)
    (getRequestRules (rules added_body_input)).
Proof.
  assert (H : forall contentType0,
            In contentType0 (JsMap.keys (bodies (request added_body_input))) ->
            instance_on added_body_input before contentType0 = None).
  { intros ct [<-|[]]. reflexivity. }
  split; [exact H|].
  exact (proj1 (side_without_bodies added_body_input before H)).
Defined.

(** The JSON content type of the example has its node. *)
Lemma visited_content_type_has_node_witness :
  In "application/json" (JsMap.keys (bodies (request added_body_input))) /\
  exists node,
    In ("application/json", node) (bodies (request added_body_input)) /\
    JsMap.get (bodies (request added_body_input)) "application/json" =
    Some node /\
    bodyChange added_body_input "application/json" = body_change node.
Proof.
  assert (H : In "application/json"
                (JsMap.keys (bodies (request added_body_input))))
    by (left; reflexivity).
  split; [exact H|].
  exact (visited_content_type_has_node added_body_input "application/json" H).
Defined.

(** Two registries that agree on the names asked give the same runner. *)
Lemma registry_names_witness :
  registry' (names_to_fetch catalogue config) =
  registry (names_to_fetch catalogue config) /\
  generateRuleRunner catalogue registry' prepare config true [] =
  generateRuleRunner catalogue registry prepare config true [].
Proof.
  assert (H : registry' (names_to_fetch catalogue config) =
              registry (names_to_fetch catalogue config)) by reflexivity.
  split; [exact H|].
  exact (proj1 (registry_names unit catalogue registry prepare config []
                  registry' H)).
Defined.


(** The column of the path for the method [get]. *)
Lemma undocumented_line_column_witness :
  is_ascii "get" = true /\
  String.length "get" <= 6 /\
  exists prefix,
    Run.exec (renderUndocumentedPath (fun s => s) "get" "/api/users")
      {| undocumentedPaths := 0; written := [] |} =
    {| undocumentedPaths := 0;
       written := [console_log (prefix ++ "/api/users")%string] |} /\
    String.length prefix = String.length "Undocumented" + 10.
Proof.
  assert (H0 : is_ascii "get" = true) by reflexivity.
  assert (H : String.length "get" <= 6) by (cbn; lia).
  split; [exact H0|]. split; [exact H|].
  exact (undocumented_line_column (fun s => s) "/api/users" "get"
           {| undocumentedPaths := 0; written := [] |} H0 H).
Defined.

(** A HAR file that exists is the only source when the directory can
    be read, and the call is rejected when it cannot. *)
Lemma getInteractions_har_witness :
  "traffic.har" <> "" /\
  getInteractions_settled (fun specPath => Some (storage specPath))
    (fun dir => Some (directory dir)) exists_on_disk resolve join
    (Some "traffic.har") "openapi.yml" =
  fulfilled (merged [fromHarFile "/work/traffic.har"]) /\
  getInteractions_settled (fun specPath => Some (storage specPath))
    (fun dir => None) exists_on_disk resolve join
    (Some "traffic.har") "openapi.yml" = rejected.
Proof.
  assert (H : "traffic.har" <> "") by discriminate.
  split; [exact H|]. split.
  - exact (getInteractions_har (fun specPath => Some (storage specPath))
             (fun dir => Some (directory dir)) exists_on_disk resolve join
             "traffic.har" "openapi.yml" H).
  - exact (getInteractions_har (fun specPath => Some (storage specPath))
             (fun dir => None) exists_on_disk resolve join
             "traffic.har" "openapi.yml" H).
Defined.

(** The two completed captures of the directory, in order. *)
Lemma getInteractions_directory_witness :
  (@None string = None \/ @None string = Some "") /\
  exists names,
    names ≡ₚ ["b.har"; "a.har"] /\
    StronglySorted code_unit_le names.
Proof.
  assert (H : @None string = None \/ @None string = Some "")
    by (left; reflexivity).
  split; [exact H|].
  destruct (getInteractions_directory storage directory exists_on_disk
              resolve join None "openapi.yml" H)
    as (names & Hperm & Hsorted & _).
  exists names. split; [exact Hperm | exact Hsorted].
Defined.

(** The sources of the example directory. *)
Example getInteractions_directory_result :
  getInteractions storage directory exists_on_disk resolve join None
    "openapi.yml" =
  merged
    [fromHarFile "/work/.optic/captures/a.har";
     fromHarFile "/work/.optic/captures/b.har"].
Proof. reflexivity. Qed.

(** Names that are local files, and names that are not. *)
Example isLocalJsFile_examples :
  isLocalJsFile ".js" = true /\ isLocalJsFile "./rules/local.js" = true /\
  isLocalJsFile "x.js.map" = false /\ isLocalJsFile "js" = false.
Proof. repeat split. Qed.

(** A name every object inherits passes the [in] test although the
    catalogue has no such entry: it is not asked of the registry. *)
Example inherited_name_not_fetched :
  catalogue !! "toString" = None /\
  names_to_fetch catalogue inherited_config = ["@team/style"].
Proof. split; reflexivity. Qed.

(** The payload of the example configuration. *)
Example payload_of_config :
  names_to_fetch catalogue config = ["@team/style"; "@team/unknown"] /\
  local_names catalogue config = ["./rules/local.js"].
Proof. split; reflexivity. Qed.

End MoreExampleProofs.
